(** * light-beaconchain-explorer: the epoch synchronizer and the slot page

    A shallow embedding of [indexer/synchronizer.go] (the background worker
    that walks epochs, fills the block cache and persists each epoch in one
    storage transaction) and of the request validation at the head of
    [handlers/slot.go].

    Conventions.
    - [uint64] values are integers in [Z]; every arithmetic operation of the
      source that can wrap is written with [u64].
    - A Go result pair [(ptr, err)] is a pair of options: [None] is [nil].
    - The worker is one sequential thread.  What reaches it from outside
      (chain-node replies, storage faults, the finalized head, a caller
      parking on the kill channel) is read from an [Env] record, one record
      per iteration of the worker loop.
    - [trace] lists, oldest first, the chain-node requests, the storage
      transaction operations, the sleeps and the log lines of the worker. *)

From Stdlib Require Import ZArith String Ascii List Bool Lia.
From stdpp Require Import base option list gmap.

Local Open Scope Z_scope.

(** ** Machine integers *)

Definition u64 (z : Z) : Z := z mod 2 ^ 64.

(** [int64(x)] for an [x : uint64]. *)
Definition toInt64 (z : Z) : Z := if z <? 2 ^ 63 then z else z - 2 ^ 64.

Definition bytes := list Byte.byte.

Module Indexer.

(** ** Data of the chain-node client (package rpctypes, fields used here) *)

Record BeaconBlockHeader := {
  msgSlot : Z;
  msgParentRoot : bytes;
}.

Record SignedBeaconBlockHeader := {
  Message : BeaconBlockHeader;
  Signature : bytes;
}.

(** [headerRsp.Data] *)
Record BlockHeaderData := {
  hdrRoot : bytes;
  Header : SignedBeaconBlockHeader;
}.

(** [blockRsp.Data], kept opaque *)
Record BlockData := { blockPayload : bytes }.

Record EpochAssignments := {
  DependendRoot : bytes;
  DependendStateRef : string;
  ProposerAssignments : list (Z * Z);
  AttestorAssignments : list (string * list Z);
  SyncAssignments : list Z;
}.

(** Modelled from the spec: the validator-state snapshot (balances and
    status as of the dependent state); its declaration is not part of the
    two files embedded here. *)
Record ValidatorStats := {
  ValidatorCount : Z;
  ValidatorBalance : Z;
}.

(** Modelled from the spec: the aggregated output of the vote aggregator
    (target-vote tally, head-vote tally, participation count), keyed by
    epoch and target root; its declaration is not part of the two files
    embedded here. *)
Record EpochVotes := {
  votesEpoch : Z;
  votesTargetRoot : bytes;
  targetVoteAmount : Z;
  headVoteAmount : Z;
  totalVoteAmount : Z;
}.

(** ** Data of the synchronizer *)

Record CacheBlock := {
  Root : bytes;
  Slot : Z;
  header : SignedBeaconBlockHeader;
  block : BlockData;
}.

Record EpochStats := {
  Epoch : Z;
  DependentRoot : bytes;
  proposerAssignments : list (Z * Z);
  attestorAssignments : list (string * list Z);
  syncAssignments : list Z;
  validatorStats : option ValidatorStats;
}.

(** Errors.  A collaborator (chain-node client, storage) reports an error as
    a message; [syncEpoch] either hands a client error on as it is
    ([ClientError]) or wraps the message with [fmt.Errorf]. *)
Inductive error :=
| ClientError (msg : string)
| ErrSlotHeader (slot : Z) (cause : string)
| ErrSlotBlock (slot : Z) (cause : string)
| ErrValidatorStats (epoch : Z)
| ErrStartTx (cause : string)
| ErrPersist (cause : string)
| ErrSyncState (cause : string)
| ErrCommit (cause : string).

(** The four errors of the storage transaction. *)
Definition isStorageError (err : error) : bool :=
  match err with
  | ErrStartTx _ | ErrPersist _ | ErrSyncState _ | ErrCommit _ => true
  | _ => false
  end.

Record synchronizerState := {
  running : bool;
  runMutex : bool;       (* [true]: held *)
  killChan : bool;       (* [true]: a sender is parked on the unbuffered channel *)
  currentEpoch : Z;
  cachedSlot : Z;
  cachedBlocks : gmap Z CacheBlock;
}.

Definition newSynchronizer : synchronizerState :=
  {| running := false; runMutex := false; killChan := false;
     currentEpoch := 0; cachedSlot := 0; cachedBlocks := ∅ |}.

Definition setRunning (b : bool) (s : synchronizerState) :=
  {| running := b; runMutex := runMutex s; killChan := killChan s;
     currentEpoch := currentEpoch s; cachedSlot := cachedSlot s;
     cachedBlocks := cachedBlocks s |}.
Definition setRunMutex (b : bool) (s : synchronizerState) :=
  {| running := running s; runMutex := b; killChan := killChan s;
     currentEpoch := currentEpoch s; cachedSlot := cachedSlot s;
     cachedBlocks := cachedBlocks s |}.
Definition setKillChan (b : bool) (s : synchronizerState) :=
  {| running := running s; runMutex := runMutex s; killChan := b;
     currentEpoch := currentEpoch s; cachedSlot := cachedSlot s;
     cachedBlocks := cachedBlocks s |}.
Definition setCurrentEpoch (e : Z) (s : synchronizerState) :=
  {| running := running s; runMutex := runMutex s; killChan := killChan s;
     currentEpoch := e; cachedSlot := cachedSlot s;
     cachedBlocks := cachedBlocks s |}.
Definition setCachedSlot (n : Z) (s : synchronizerState) :=
  {| running := running s; runMutex := runMutex s; killChan := killChan s;
     currentEpoch := currentEpoch s; cachedSlot := n;
     cachedBlocks := cachedBlocks s |}.
Definition setCachedBlocks (m : gmap Z CacheBlock) (s : synchronizerState) :=
  {| running := running s; runMutex := runMutex s; killChan := killChan s;
     currentEpoch := currentEpoch s; cachedSlot := cachedSlot s;
     cachedBlocks := m |}.

(** ** Storage *)

(** What one epoch leaves in storage. *)
Record EpochRecord := {
  recBlocks : gmap Z CacheBlock;
  recStats : EpochStats;
  recVotes : EpochVotes;
}.

(** The committed content of the writer database: the per-epoch derived
    records and the [indexer.syncstate] cursor. *)
Record Store := {
  epochs : gmap Z EpochRecord;
  syncstate : option Z;
}.

(** Modelled from the spec: [db.IsEpochSynchronized], "storage reports that
    epoch as previously synchronized"; package db is not embedded here. *)
Definition IsEpochSynchronized (db : Store) (epoch : Z) : bool :=
  bool_decide (is_Some (epochs db !! epoch)).

(** Modelled from the spec: [persistEpochData], which writes "the epoch's
    derived records (blocks, stats, votes)" through the transaction it is
    handed; its body is not embedded here. *)
Definition persistEpochData (fault : option string) (epoch : Z)
    (blocks : gmap Z CacheBlock) (stats : EpochStats) (votes : EpochVotes)
    (tx : Store) : option string * Store :=
  match fault with
  | Some err => (Some err, tx)
  | None =>
      (None, {| epochs := <[epoch := {| recBlocks := blocks; recStats := stats;
                                        recVotes := votes |}]> (epochs tx);
                syncstate := syncstate tx |})
  end.

(** Modelled from the spec: [db.SetExplorerState("indexer.syncstate", ..., tx)],
    which updates the cursor record through the transaction; package db is
    not embedded here. *)
Definition SetExplorerState (fault : option string) (epoch : Z) (tx : Store)
    : option string * Store :=
  match fault with
  | Some err => (Some err, tx)
  | None => (None, {| epochs := epochs tx; syncstate := Some epoch |})
  end.

(** ** The outside world of one loop iteration *)

(** The places where the worker looks at the kill channel. *)
Inductive Checkpoint :=
| CpAssignments          (* before fetching headers *)
| CpSlot (slot : Z)      (* between the header and the body of a slot *)
| CpFetched              (* after the fetch loop, before computing stats *)
| CpStats                (* after the stats, before aggregating *)
| CpCooldown.            (* the wait between two iterations *)

Record Env := {
  GetEpochAssignments : Z -> option EpochAssignments * option string;
  GetBlockHeaderBySlot : Z -> option BlockHeaderData * option string;
  GetBlockBodyByBlockroot : bytes -> option BlockData * option string;
  (* what [epochStats.loadValidatorStats] leaves in [validatorStats] *)
  loadValidatorStats : string -> option ValidatorStats;
  aggregateEpochVotes :
    gmap Z CacheBlock -> Z -> EpochStats -> bytes -> bool -> EpochVotes;
  (* storage faults *)
  BeginxFault : option string;
  persistFault : option string;
  setStateFault : option string;
  CommitFault : option string;
  (* [finalizedEpoch, _ := getFinalizedHead()] *)
  getFinalizedHead : Z;
  (* does a caller park on the kill channel by the time of this check *)
  killArrives : Checkpoint -> bool;
}.

Record Config := {
  SlotsPerEpoch : Z;
  SyncEpochCooldown : Z;
}.

(** ** Trace *)

Inductive RpcCall :=
| CallAssignments (epoch : Z)
| CallHeader (slot : Z)
| CallBody (root : bytes)
| CallValidatorStats (stateRef : string).

Inductive RpcResult :=
| RpcOk
| RpcNil
| RpcErr (err : string).

Inductive TxOp :=
| TxBegin
| TxPersist (epoch : Z)
| TxSetState (epoch : Z)
| TxCommit
| TxRollback.

Inductive LogLine :=
| LogStarted (epoch : Z)
| LogSynchronizing (epoch : Z)
| LogDutiesError (epoch : Z)
| LogRetry (epoch : Z) (err : error)
| LogComplete (epoch : Z)
| LogAborted (epoch : Z)
| LogPanic (msg : string).

Inductive Event :=
| EvRpc (call : RpcCall) (res : RpcResult)
| EvTx (op : TxOp) (ok : bool)
| EvSleep (seconds : Z)
| EvLog (line : LogLine).

Definition rpcResult {A} (rsp : option A * option string) : RpcResult :=
  match rsp with
  | (_, Some err) => RpcErr err
  | (None, None) => RpcNil
  | (Some _, None) => RpcOk
  end.

Record World := {
  sync : synchronizerState;
  WriterDb : Store;
  trace : list Event;
}.

Definition withSync (f : synchronizerState -> synchronizerState) (w : World) :=
  {| sync := f (sync w); WriterDb := WriterDb w; trace := trace w |}.
Definition withDb (db : Store) (w : World) :=
  {| sync := sync w; WriterDb := db; trace := trace w |}.
Definition emit (ev : Event) (w : World) :=
  {| sync := sync w; WriterDb := WriterDb w; trace := trace w ++ [ev] |}.

(** The events [w'] has on top of those of [w]. *)
Definition newEvents (w w' : World) : list Event :=
  drop (length (trace w)) (trace w').

(** ** Results *)

Inductive Outcome :=
| Returned (done : bool) (err : option error)
| Panics (msg : string)
| Hangs.

(** ** isEpochAhead *)

Definition isEpochAhead (s : synchronizerState) (epoch : Z) : bool :=
  if running s then
    if currentEpoch s <? epoch then true else false
  else false.

(** ** checkKillChan

    A receive succeeds when a sender is parked on the channel, or parks on
    it while the [select] waits; the receive releases that sender.  The two
    branches differ only in how long they wait. *)
Definition checkKillChan (arrives : bool) (timeout : Z) (w : World)
    : bool * World :=
  if 0 <? timeout then
    if killChan (sync w) || arrives
    then (true, withSync (setKillChan false) w)
    else (false, w)
  else
    if killChan (sync w) || arrives
    then (true, withSync (setKillChan false) w)
    else (false, w).

(** ** Loops over slots

    [for slot := first; slot <= last; slot++ { body }] on [uint64].  The
    body either goes on with a new state ([inl]) or leaves the loop with a
    result ([inr]: a [break] or a [return]).  [slotBudget] iterations are
    enough whenever [last < 2^64 - 1]; at [last = 2^64 - 1] the condition of
    the source never becomes false and the budget runs out ([None]). *)
Fixpoint forSlots {S R : Type} (body : Z -> S -> S + R) (fuel : nat)
    (slot last : Z) (s : S) : option (S + R) :=
  match fuel with
  | O => None
  | Datatypes.S fuel' =>
      if last <? slot then Some (inl s)
      else match body slot s with
           | inl s' => forSlots body fuel' (u64 (slot + 1)) last s'
           | inr r => Some (inr r)
           end
  end.

Definition slotBudget (first last : Z) : nat :=
  Datatypes.S (Z.to_nat (last + 1 - first)).

(** ** syncEpoch, the fetch loop *)

(** The body of the loop at lines 158-182. *)
Definition fetchSlot (env : Env) (slot : Z) (w : World)
    : World + Outcome * World :=
  if slot <=? cachedSlot (sync w) then inl w
  else
    let headerRsp := GetBlockHeaderBySlot env slot in
    let w := emit (EvRpc (CallHeader slot) (rpcResult headerRsp)) w in
    match headerRsp with
    | (_, Some err) => inr (Returned false (Some (ErrSlotHeader slot err)), w)
    | (None, None) => inl w
    | (Some hd, None) =>
        let (killed, w) := checkKillChan (killArrives env (CpSlot slot)) 0 w in
        if killed then inr (Returned false None, w)
        else
          let blockRsp := GetBlockBodyByBlockroot env (hdrRoot hd) in
          let w := emit (EvRpc (CallBody (hdrRoot hd)) (rpcResult blockRsp)) w in
          match blockRsp with
          | (_, Some err) => inr (Returned false (Some (ErrSlotBlock slot err)), w)
          | (None, None) =>
              (* [&blockRsp.Data] on a nil [blockRsp] *)
              inr (Panics "invalid memory address or nil pointer dereference", w)
          | (Some body, None) =>
              let cb := {| Root := hdrRoot hd; Slot := slot;
                           header := Header hd; block := body |} in
              inl (withSync (fun s =>
                     setCachedBlocks (<[slot := cb]> (cachedBlocks s)) s) w)
          end
    end.

Definition firstSlotOf (cfg : Config) (epoch : Z) : Z :=
  u64 (epoch * SlotsPerEpoch cfg).

(** [lastSlot] of the fetch window: this epoch and the next. *)
Definition windowLastSlot (cfg : Config) (epoch : Z) : Z :=
  u64 (firstSlotOf cfg epoch + SlotsPerEpoch cfg * 2 - 1).

(** [lastSlot] of the epoch's own range. *)
Definition epochLastSlot (cfg : Config) (epoch : Z) : Z :=
  u64 (firstSlotOf cfg epoch + SlotsPerEpoch cfg - 1).

Definition fetchBlocks (cfg : Config) (env : Env) (epoch : Z) (w : World)
    : option (World + Outcome * World) :=
  let firstSlot := firstSlotOf cfg epoch in
  let lastSlot := windowLastSlot cfg epoch in
  forSlots (fetchSlot env) (slotBudget firstSlot lastSlot) firstSlot lastSlot w.

(** ** syncEpoch, the target root *)

(** The body of the loop at lines 209-214: [break] at the first cached slot. *)
Definition pickBlock (cache : gmap Z CacheBlock) (slot : Z) (_ : unit)
    : unit + CacheBlock :=
  match cache !! slot with
  | Some cb => inr cb
  | None => inl tt
  end.

(** [firstBlock] after the loop; the outer [None] is a loop that does not
    end. *)
Definition findFirstBlock (cfg : Config) (epoch : Z) (cache : gmap Z CacheBlock)
    : option (option CacheBlock) :=
  let firstSlot := firstSlotOf cfg epoch in
  let lastSlot := epochLastSlot cfg epoch in
  match forSlots (pickBlock cache) (slotBudget firstSlot lastSlot)
                 firstSlot lastSlot tt with
  | None => None
  | Some (inl _) => Some None
  | Some (inr cb) => Some (Some cb)
  end.

(** Lines 216-223; a nil slice is the empty list. *)
Definition targetRootOf (firstSlot : Z) (firstBlock : option CacheBlock) : bytes :=
  match firstBlock with
  | Some fb =>
      if u64 (msgSlot (Message (header fb))) =? firstSlot
      then Root fb
      else msgParentRoot (Message (header fb))
  | None => []
  end.

(** ** syncEpoch, the storage transaction (lines 227-247)

    The transaction works on its own copy of the store; [Commit] installs
    the copy, and the deferred [Rollback] drops it (after a [Commit] it does
    nothing).  The first component is the error [syncEpoch] returns. *)
Definition persistEpoch (env : Env) (epoch : Z) (blocks : gmap Z CacheBlock)
    (stats : EpochStats) (votes : EpochVotes) (w : World)
    : option error * World :=
  match BeginxFault env with
  | Some err => (Some (ErrStartTx err), emit (EvTx TxBegin false) w)
  | None =>
      let w := emit (EvTx TxBegin true) w in
      let tx := WriterDb w in
      match persistEpochData (persistFault env) epoch blocks stats votes tx with
      | (Some err, _) =>
          let w := emit (EvTx (TxPersist epoch) false) w in
          (Some (ErrPersist err), emit (EvTx TxRollback true) w)
      | (None, tx) =>
          let w := emit (EvTx (TxPersist epoch) true) w in
          match SetExplorerState (setStateFault env) epoch tx with
          | (Some err, _) =>
              let w := emit (EvTx (TxSetState epoch) false) w in
              (Some (ErrSyncState err), emit (EvTx TxRollback true) w)
          | (None, tx) =>
              let w := emit (EvTx (TxSetState epoch) true) w in
              match CommitFault env with
              | Some err =>
                  let w := emit (EvTx TxCommit false) w in
                  (Some (ErrCommit err), emit (EvTx TxRollback true) w)
              | None =>
                  let w := emit (EvTx TxCommit true) (withDb tx w) in
                  (None, emit (EvTx TxRollback false) w)
              end
          end
      end
  end.

(** ** syncEpoch, the cache cleanup (lines 249-254) *)

Definition evictSlot (slot : Z) (cache : gmap Z CacheBlock)
    : gmap Z CacheBlock + Empty_set :=
  match cache !! slot with
  | Some _ => inl (delete slot cache)
  | None => inl cache
  end.

Definition cleanupCache (cfg : Config) (epoch : Z) (cache : gmap Z CacheBlock)
    : option (gmap Z CacheBlock) :=
  let firstSlot := firstSlotOf cfg epoch in
  let lastSlot := epochLastSlot cfg epoch in
  match forSlots evictSlot (slotBudget firstSlot lastSlot)
                 firstSlot lastSlot cache with
  | Some (inl cache') => Some cache'
  | _ => None
  end.

(** ** syncEpoch *)

(** Lines 185-256: from the check after the fetch loop to the end. *)
Definition finishEpoch (cfg : Config) (env : Env) (syncEpoch : Z)
    (epochAssignments : EpochAssignments) (w : World) : Outcome * World :=
  let (killed, w) := checkKillChan (killArrives env CpFetched) 0 w in
  if killed then (Returned false None, w)
  else
    let vstats := loadValidatorStats env (DependendStateRef epochAssignments) in
    let epochStats :=
      {| Epoch := syncEpoch;
         DependentRoot := DependendRoot epochAssignments;
         proposerAssignments := ProposerAssignments epochAssignments;
         attestorAssignments := AttestorAssignments epochAssignments;
         syncAssignments := SyncAssignments epochAssignments;
         validatorStats := vstats |} in
    let w := emit (EvRpc (CallValidatorStats (DependendStateRef epochAssignments))
                         (match vstats with Some _ => RpcOk | None => RpcNil end)) w in
    match vstats with
    | None => (Returned false (Some (ErrValidatorStats syncEpoch)), w)
    | Some _ =>
        let (killed, w) := checkKillChan (killArrives env CpStats) 0 w in
        if killed then (Returned false None, w)
        else
          match findFirstBlock cfg syncEpoch (cachedBlocks (sync w)) with
          | None => (Hangs, w)
          | Some firstBlock =>
              let targetRoot := targetRootOf (firstSlotOf cfg syncEpoch) firstBlock in
              let epochVotes :=
                aggregateEpochVotes env (cachedBlocks (sync w)) syncEpoch
                                    epochStats targetRoot false in
              match persistEpoch env syncEpoch (cachedBlocks (sync w))
                                 epochStats epochVotes w with
              | (Some err, w) => (Returned false (Some err), w)
              | (None, w) =>
                  match cleanupCache cfg syncEpoch (cachedBlocks (sync w)) with
                  | None => (Hangs, w)
                  | Some cache' =>
                      (Returned true None, withSync (setCachedBlocks cache') w)
                  end
              end
          end
    end.

(** Lines 138-183: from the idempotent skip to the end of the fetch loop.
    [inl] carries the assignments and the world on to [finishEpoch]; [inr]
    is a [return] (or a fault) on the way. *)
Definition loadEpoch (cfg : Config) (env : Env) (syncEpoch : Z) (w : World)
    : EpochAssignments * World + Outcome * World :=
  if IsEpochSynchronized (WriterDb w) syncEpoch then inr (Returned true None, w)
  else
    let rsp := GetEpochAssignments env syncEpoch in
    let w := emit (EvRpc (CallAssignments syncEpoch) (rpcResult rsp)) w in
    match rsp with
    | (_, Some err) =>
        inr (Returned false (Some (ClientError err)),
             emit (EvLog (LogDutiesError syncEpoch)) w)
    | (None, None) =>
        inr (Returned false None, emit (EvLog (LogDutiesError syncEpoch)) w)
    | (Some epochAssignments, None) =>
        let (killed, w) := checkKillChan (killArrives env CpAssignments) 0 w in
        if killed then inr (Returned false None, w)
        else
          match fetchBlocks cfg env syncEpoch w with
          | None => inr (Hangs, w)
          | Some (inr r) => inr r
          | Some (inl w) =>
              inl (epochAssignments,
                   withSync (setCachedSlot (windowLastSlot cfg syncEpoch)) w)
          end
    end.

Definition syncEpoch (cfg : Config) (env : Env) (syncEpoch : Z) (w : World)
    : Outcome * World :=
  match loadEpoch cfg env syncEpoch w with
  | inr r => r
  | inl (epochAssignments, w) => finishEpoch cfg env syncEpoch epochAssignments w
  end.

(** The same loop over an explicit list of slots; [forSlots] runs like this
    whenever the slot counter does not wrap. *)
Fixpoint foldSlots {S R : Type} (body : Z -> S -> S + R) (slots : list Z)
    (s : S) : S + R :=
  match slots with
  | [] => inl s
  | slot :: slots' =>
      match body slot s with
      | inl s' => foldSlots body slots' s'
      | inr r => inr r
      end
  end.

(** ** runSync *)

Inductive LoopExit :=
| LoopBreak (isComplete : bool)
| LoopPanic (msg : string)
| LoopPending.             (* the schedule ended, or the step does not return *)

(** The [for] loop at lines 84-108, one [Env] per iteration. *)
Fixpoint runLoop (cfg : Config) (envs : list Env) (w : World)
    : LoopExit * World :=
  match envs with
  | [] => (LoopPending, w)
  | env :: envs' =>
      let syncEpoch_ := currentEpoch (sync w) in
      let w := emit (EvLog (LogSynchronizing syncEpoch_)) w in
      match syncEpoch cfg env syncEpoch_ w with
      | (Panics msg, w) => (LoopPanic msg, w)
      | (Hangs, w) => (LoopPending, w)
      | (Returned done err, w) =>
          let cooldown (w : World) :=
            let (killed, w) :=
              checkKillChan (killArrives env CpCooldown)
                            (SyncEpochCooldown cfg) w in
            if killed then (LoopBreak false, w) else runLoop cfg envs' w in
          if done then
            let finalizedEpoch := getFinalizedHead env in
            let syncEpoch_ := u64 (syncEpoch_ + 1) in
            let w := withSync (setCurrentEpoch syncEpoch_) w in
            if toInt64 syncEpoch_ >? finalizedEpoch
            then (LoopBreak true, w)
            else cooldown w
          else
            match err with
            | Some e =>
                let w := emit (EvLog (LogRetry syncEpoch_ e)) w in
                cooldown (emit (EvSleep 10) w)
            | None => cooldown w
            end
      end
  end.

Inductive WorkerExit :=
| WorkerDone (isComplete : bool)
| WorkerRecovered (msg : string)   (* the deferred [recover] caught a panic *)
| WorkerPending.

Definition runSync (cfg : Config) (envs : list Env) (w : World)
    : WorkerExit * World :=
  let w := withSync (setRunMutex true) w in
  let w := withSync (fun s => setCachedSlot 0 (setCachedBlocks ∅ s)) w in
  let w := emit (EvLog (LogStarted (currentEpoch (sync w)))) w in
  match runLoop cfg envs w with
  | (LoopBreak isComplete, w) =>
      let w := emit (EvLog (if isComplete
                            then LogComplete (currentEpoch (sync w))
                            else LogAborted (currentEpoch (sync w)))) w in
      let w := withSync (setRunning false) w in
      (* deferred: runMutex.Unlock(); recover() finds nothing *)
      (WorkerDone isComplete, withSync (setRunMutex false) w)
  | (LoopPanic msg, w) =>
      (* deferred: runMutex.Unlock(), then recover() logs the panic *)
      let w := withSync (setRunMutex false) w in
      (WorkerRecovered msg, emit (EvLog (LogPanic msg)) w)
  | (LoopPending, w) => (WorkerPending, w)
  end.

End Indexer.

Module Handlers.

(** ** Library functions the handler calls *)

(** [strings.Replace(s, "0x", "", -1)]: every occurrence, left to right. *)
Fixpoint stripHexPrefix (s : string) : string :=
  match s with
  | String "0"%char (String "x"%char rest) => stripHexPrefix rest
  | String c rest => String c (stripHexPrefix rest)
  | EmptyString => EmptyString
  end.

Definition hexDigit (c : ascii) : option N :=
  let n := N_of_ascii c in
  if ((48 <=? n) && (n <=? 57))%N then Some (n - 48)%N
  else if ((97 <=? n) && (n <=? 102))%N then Some (n - 87)%N
  else if ((65 <=? n) && (n <=? 70))%N then Some (n - 55)%N
  else None.

(** [hex.DecodeString]: [None] is a non-nil error (a character that is not
    a hex digit, or an odd length). *)
Fixpoint DecodeString (s : string) : option bytes :=
  match s with
  | EmptyString => Some []
  | String _ EmptyString => None
  | String p (String q rest) =>
      match hexDigit p, hexDigit q with
      | Some a, Some b =>
          match Byte.of_N (a * 16 + b), DecodeString rest with
          | Some x, Some l => Some (x :: l)
          | _, _ => None
          end
      | _, _ => None
      end
  end.

Definition decDigit (c : ascii) : option Z :=
  let n := N_of_ascii c in
  if ((48 <=? n) && (n <=? 57))%N then Some (Z.of_N (n - 48)) else None.

Fixpoint parseDigits (acc : Z) (s : string) : option Z :=
  match s with
  | EmptyString => Some acc
  | String c rest =>
      match decDigit c with
      | Some d => parseDigits (acc * 10 + d) rest
      | None => None
      end
  end.

(** The digits of [strconv.ParseInt(s, 10, 64)] once the sign is taken off:
    at least one, the value within [int64]. *)
Definition parseSigned (neg : bool) (digits : string) : option Z :=
  match digits with
  | EmptyString => None
  | _ =>
      match parseDigits 0 digits with
      | Some un =>
          if neg then (if (un <=? 2 ^ 63)%Z then Some (- un)%Z else None)
          else (if (un <? 2 ^ 63)%Z then Some un else None)
      | None => None
      end
  end.

(** [strconv.ParseInt(s, 10, 64)]: an optional sign, then decimal digits;
    [None] is a non-nil error. *)
Definition ParseInt (s : string) : option Z :=
  match s with
  | EmptyString => None
  | String "+"%char rest => parseSigned false rest
  | String "-"%char rest => parseSigned true rest
  | _ => parseSigned false s
  end.

(** ** The beacon service, as far as the head of the handler uses it *)

Record BlockResponse := {
  respSlot : Z;
  respOrphaned : bool;
}.

Record BeaconService := {
  GetFinalizedBlockHead : option Z * option string;
  GetSlotDetailsBySlot : Z -> option BlockResponse * option string;
  GetSlotDetailsByBlockroot : bytes -> option BlockResponse * option string;
  (* the roots of [GetDbBlocksForSlots(slot, 1, true)] *)
  GetDbBlocksForSlots : Z -> list bytes;
  GetOrphanedBlock : bytes -> option BlockResponse;
}.

Inductive ServiceCall :=
| QueryFinalizedBlockHead
| QuerySlotDetailsBySlot (slot : Z)
| QuerySlotDetailsByBlockroot (root : bytes)
| QueryDbBlocksForSlots (slot : Z)
| QueryOrphanedBlock (root : bytes).

Inductive Page :=
| NotFoundPage (title : string)
| ErrorPage (err : string)
| SlotPage (slot : Z) (blockData : option BlockResponse).

Record Response := {
  queries : list ServiceCall;
  page : Page;
}.

(** ** Slot (lines 42-103)

    [slotOrHashVar] is [mux.Vars(r)["slotOrHash"]].  The result is the page
    the handler goes on to render and the queries it sent to the beacon
    service on the way. *)
Definition Slot (svc : BeaconService) (slotOrHashVar : string) : Response :=
  let slotOrHash := stripHexPrefix slotOrHashVar in
  let decoded := DecodeString slotOrHash in
  let isRoot :=
    match decoded with
    | Some _ => Nat.eqb (String.length slotOrHash) 64
    | None => false
    end in
  let parsed := if isRoot then None else ParseInt slotOrHashVar in
  let rejected :=
    if isRoot then false
    else match parsed with
         | Some blockSlot => (2147483648 <=? blockSlot)%Z
         | None => true
         end in
  if rejected then {| queries := []; page := NotFoundPage slotOrHash |}
  else
    let blockSlot : Z := if isRoot then (-1)%Z else default 0%Z parsed in
    let blockRootHash : bytes := if isRoot then default [] decoded else [] in
    let q1 := [QueryFinalizedBlockHead] in
    let '(blockData, err, q2) :=
      match GetFinalizedBlockHead svc with
      | (_, Some e) => (None, Some e, q1)
      | (_, None) =>
          if (-1 <? blockSlot)%Z
          then (fst (GetSlotDetailsBySlot svc (u64 blockSlot)),
                snd (GetSlotDetailsBySlot svc (u64 blockSlot)),
                q1 ++ [QuerySlotDetailsBySlot (u64 blockSlot)])
          else (fst (GetSlotDetailsByBlockroot svc blockRootHash),
                snd (GetSlotDetailsByBlockroot svc blockRootHash),
                q1 ++ [QuerySlotDetailsByBlockroot blockRootHash])
      end in
    let '(blockData, q3) :=
      match blockData, err with
      | None, None =>
          (* check for orphaned block *)
          let '(blockRootHash, q) :=
            if (-1 <? blockSlot)%Z
            then (match GetDbBlocksForSlots svc (u64 blockSlot) with
                  | root :: _ => root
                  | [] => blockRootHash
                  end, q2 ++ [QueryDbBlocksForSlots (u64 blockSlot)])
            else (blockRootHash, q2) in
          (GetOrphanedBlock svc blockRootHash,
           q ++ [QueryOrphanedBlock blockRootHash])
      | _, _ => (blockData, q2)
      end in
    match blockData, err with
    | None, None =>
        if (-1 <? blockSlot)%Z
        then {| queries := q3; page := SlotPage (u64 blockSlot) None |}
        else {| queries := q3; page := NotFoundPage slotOrHash |}
    | _, Some e => {| queries := q3; page := ErrorPage e |}
    | Some bd, None =>
        {| queries := q3; page := SlotPage (u64 (respSlot bd)) (Some bd) |}
    end.

End Handlers.

(** ** Vocabulary of the statements *)

Module Specs.
Import Indexer.

(** The configuration and the epoch are such that no slot of the window of
    [epoch] (its own slots and those of the next epoch) wraps. *)
Definition windowFits (cfg : Config) (epoch : Z) : Prop :=
  0 <= epoch /\ 0 < SlotsPerEpoch cfg /\ (epoch + 2) * SlotsPerEpoch cfg < 2 ^ 64.

(** [slot] belongs to the own range of [epoch]. *)
Definition inEpoch (cfg : Config) (epoch slot : Z) : Prop :=
  epoch * SlotsPerEpoch cfg <= slot <= epoch * SlotsPerEpoch cfg + SlotsPerEpoch cfg - 1.


(** A chain-node call that came back with an error. *)
Definition isRpcErr (ev : Event) : bool :=
  match ev with
  | EvRpc _ (RpcErr _) => true
  | _ => false
  end.

(** One of the four steps of the storage transaction (open, persist,
    cursor write, commit) that failed. *)
Definition isFailedStep (ev : Event) : bool :=
  match ev with
  | EvTx TxRollback _ => false
  | EvTx _ false => true
  | _ => false
  end.

Definition isTx (ev : Event) : bool :=
  match ev with
  | EvTx _ _ => true
  | _ => false
  end.

Definition headerRequest (ev : Event) : option Z :=
  match ev with
  | EvRpc (CallHeader slot) _ => Some slot
  | _ => None
  end.

(** The slots a header was requested for, in order. *)
Definition headerRequests (evs : list Event) : list Z := omap headerRequest evs.

(** [syncEpoch] went through the full cycle for [epoch] and committed. *)
Definition persisted (cfg : Config) (env : Env) (epoch : Z) (w : World) : Prop :=
  IsEpochSynchronized (WriterDb w) epoch = false /\
  fst (syncEpoch cfg env epoch w) = Returned true None.

(** What the fetch loop may leave on the trace: header requests for
    visited slots above the high-water mark [mark], and body requests. *)
Definition fetchEvent (visited : Z -> Prop) (mark : Z) (ev : Event) : Prop :=
  match ev with
  | EvRpc (CallHeader slot) _ => visited slot /\ mark < slot
  | EvRpc (CallBody _) _ => True
  | _ => False
  end.

(** How a run of the fetch loop from [w0] to [w], with the events [evs],
    relates the two worlds. *)
Record fetched (env : Env) (visited : Z -> Prop) (w0 w : World)
    (evs : list Event) : Prop := {
  fetched_trace : trace w = trace w0 ++ evs;
  fetched_db : WriterDb w = WriterDb w0;
  fetched_mark : cachedSlot (sync w) = cachedSlot (sync w0);
  fetched_running : running (sync w) = running (sync w0);
  fetched_epoch : currentEpoch (sync w) = currentEpoch (sync w0);
  fetched_mutex : runMutex (sync w) = runMutex (sync w0);
  fetched_events : Forall (fetchEvent visited (cachedSlot (sync w0))) evs;
  fetched_cache : forall k,
    cachedBlocks (sync w) !! k = cachedBlocks (sync w0) !! k \/
    (visited k /\ cachedSlot (sync w0) < k /\
     (exists hd, GetBlockHeaderBySlot env k = (Some hd, None)) /\
     is_Some (cachedBlocks (sync w) !! k));
}.

(** The ways [syncEpoch] ends before it opens the transaction: with an
    error that is not one of storage, or, no request having failed, because
    the kill channel fired, a reply was nil, or a loop does not end. *)
Definition earlyExit (o : Outcome) (evs : list Event) : Prop :=
  match o with
  | Returned true _ => False
  | Returned false (Some err) => isStorageError err = false
  | Returned false None | Panics _ | Hangs =>
      Forall (fun ev => isRpcErr ev = false) evs
  end.

(** How a stretch of [syncEpoch] that stays clear of the transaction, from
    [w0] to [w] with the events [evs], relates the two worlds. *)
Record advanced (env : Env) (visited : Z -> Prop) (w0 w : World)
    (evs : list Event) : Prop := {
  adv_trace : trace w = trace w0 ++ evs;
  adv_db : WriterDb w = WriterDb w0;
  adv_running : running (sync w) = running (sync w0);
  adv_epoch : currentEpoch (sync w) = currentEpoch (sync w0);
  adv_mutex : runMutex (sync w) = runMutex (sync w0);
  adv_headers :
    Forall (fun slot => visited slot /\ cachedSlot (sync w0) < slot)
           (headerRequests evs);
  adv_notx : Forall (fun ev => isTx ev = false) evs;
  adv_cache : forall k,
    cachedBlocks (sync w) !! k = cachedBlocks (sync w0) !! k \/
    (visited k /\ cachedSlot (sync w0) < k /\
     (exists hd, GetBlockHeaderBySlot env k = (Some hd, None)) /\
     is_Some (cachedBlocks (sync w) !! k));
}.

(** The slots of the fetch window of an epoch. *)
Definition inWindow (cfg : Config) (epoch slot : Z) : Prop :=
  epoch * SlotsPerEpoch cfg <= slot
  <= epoch * SlotsPerEpoch cfg + SlotsPerEpoch cfg * 2 - 1.

(** What is known of the slots [fetchBlocks] visits: nothing in general,
    the window of the epoch when it does not wrap. *)
Definition visits (cfg : Config) (epoch : Z) (visited : Z -> Prop) : Prop :=
  (forall k, visited k) \/
  (windowFits cfg epoch /\ forall k, inWindow cfg epoch k -> visited k).

(** The cache of [w'] against that of [w]: an entry is as it was, or was
    put there by the fetch loop. *)
Definition cacheGrown (env : Env) (visited : Z -> Prop) (w w' : World) : Prop :=
  forall k,
    cachedBlocks (sync w') !! k = cachedBlocks (sync w) !! k \/
    (visited k /\ cachedSlot (sync w) < k /\
     (exists hd, GetBlockHeaderBySlot env k = (Some hd, None)) /\
     is_Some (cachedBlocks (sync w') !! k)).

(** The fetch loop started in [w0] is on its way in [w]: no request has
    failed so far. *)
Definition fetchGoing (env : Env) (visited : Z -> Prop) (w0 w : World) : Prop :=
  exists evs, fetched env visited w0 w evs /\
              Forall (fun ev => isRpcErr ev = false) evs.

(** The fetch loop started in [w0] leaves [syncEpoch] with [r]. *)
Definition fetchLeaving (env : Env) (visited : Z -> Prop) (w0 : World)
    (r : Outcome * World) : Prop :=
  exists evs, fetched env visited w0 (snd r) evs /\ earlyExit (fst r) evs.





End Specs.

(** ** Concrete worlds used by the examples below *)

Module Examples.
Import Indexer.

(** Two slots per epoch, one second of cooldown. *)
Definition cfg2 : Config := {| SlotsPerEpoch := 2; SyncEpochCooldown := 1 |}.

Definition rootOf (slot : Z) : bytes :=
  [default Byte.x00 (Byte.of_N (Z.to_N slot))].

Definition headerAt (slot : Z) : BlockHeaderData :=
  {| hdrRoot := rootOf slot;
     Header := {| Message := {| msgSlot := slot;
                                msgParentRoot := rootOf (slot - 1) |};
                  Signature := [] |} |}.

Definition blockAt (slot : Z) : CacheBlock :=
  {| Root := rootOf slot; Slot := slot; header := Header (headerAt slot);
     block := {| blockPayload := rootOf slot |} |}.

Definition duties : EpochAssignments :=
  {| DependendRoot := []; DependendStateRef := "head";
     ProposerAssignments := []; AttestorAssignments := [];
     SyncAssignments := [] |}.

Definition tally (cache : gmap Z CacheBlock) (epoch : Z) (stats : EpochStats)
    (targetRoot : bytes) (_ : bool) : EpochVotes :=
  {| votesEpoch := epoch; votesTargetRoot := targetRoot;
     targetVoteAmount := 0; headVoteAmount := 0; totalVoteAmount := 0 |}.

(** A chain node that answers every request; a block in every slot but the
    ones listed in [empty]. *)
Definition node (empty : list Z) (finalized : Z) : Env :=
  {| GetEpochAssignments := fun _ => (Some duties, None);
     GetBlockHeaderBySlot := fun slot =>
       if bool_decide (slot ∈ empty) then (None, None)
       else (Some (headerAt slot), None);
     GetBlockBodyByBlockroot := fun root =>
       (Some {| blockPayload := root |}, None);
     loadValidatorStats := fun _ =>
       Some {| ValidatorCount := 1; ValidatorBalance := 32 |};
     aggregateEpochVotes := tally;
     BeginxFault := None; persistFault := None;
     setStateFault := None; CommitFault := None;
     getFinalizedHead := finalized;
     killArrives := fun _ => false |}.

Definition withKill (at_ : Checkpoint -> bool) (env : Env) : Env :=
  {| GetEpochAssignments := GetEpochAssignments env;
     GetBlockHeaderBySlot := GetBlockHeaderBySlot env;
     GetBlockBodyByBlockroot := GetBlockBodyByBlockroot env;
     loadValidatorStats := loadValidatorStats env;
     aggregateEpochVotes := aggregateEpochVotes env;
     BeginxFault := BeginxFault env; persistFault := persistFault env;
     setStateFault := setStateFault env; CommitFault := CommitFault env;
     getFinalizedHead := getFinalizedHead env;
     killArrives := at_ |}.

Definition withCommitFault (err : string) (env : Env) : Env :=
  {| GetEpochAssignments := GetEpochAssignments env;
     GetBlockHeaderBySlot := GetBlockHeaderBySlot env;
     GetBlockBodyByBlockroot := GetBlockBodyByBlockroot env;
     loadValidatorStats := loadValidatorStats env;
     aggregateEpochVotes := aggregateEpochVotes env;
     BeginxFault := BeginxFault env; persistFault := persistFault env;
     setStateFault := setStateFault env; CommitFault := Some err;
     getFinalizedHead := getFinalizedHead env;
     killArrives := killArrives env |}.

Definition withHeaders
    (f : Z -> option BlockHeaderData * option string) (env : Env) : Env :=
  {| GetEpochAssignments := GetEpochAssignments env;
     GetBlockHeaderBySlot := f;
     GetBlockBodyByBlockroot := GetBlockBodyByBlockroot env;
     loadValidatorStats := loadValidatorStats env;
     aggregateEpochVotes := aggregateEpochVotes env;
     BeginxFault := BeginxFault env; persistFault := persistFault env;
     setStateFault := setStateFault env; CommitFault := CommitFault env;
     getFinalizedHead := getFinalizedHead env;
     killArrives := killArrives env |}.

Definition withBodies
    (f : bytes -> option BlockData * option string) (env : Env) : Env :=
  {| GetEpochAssignments := GetEpochAssignments env;
     GetBlockHeaderBySlot := GetBlockHeaderBySlot env;
     GetBlockBodyByBlockroot := f;
     loadValidatorStats := loadValidatorStats env;
     aggregateEpochVotes := aggregateEpochVotes env;
     BeginxFault := BeginxFault env; persistFault := persistFault env;
     setStateFault := setStateFault env; CommitFault := CommitFault env;
     getFinalizedHead := getFinalizedHead env;
     killArrives := killArrives env |}.

Definition emptyStore : Store := {| epochs := ∅; syncstate := None |}.

(** A beacon service that knows no block. *)
Definition blank : Handlers.BeaconService :=
  {| Handlers.GetFinalizedBlockHead := (Some 0, None);
     Handlers.GetSlotDetailsBySlot := fun _ => (None, None);
     Handlers.GetSlotDetailsByBlockroot := fun _ => (None, None);
     Handlers.GetDbBlocksForSlots := fun _ => [];
     Handlers.GetOrphanedBlock := fun _ => None |}.

(** The world [startSync epoch] hands to the worker: flag set, cursor at
    [epoch], nothing in storage. *)
Definition started (epoch : Z) : World :=
  {| sync := setRunning true (setCurrentEpoch epoch newSynchronizer);
     WriterDb := emptyStore; trace := [] |}.

(** The same world once the worker has reset its cache. *)
Definition fresh : World :=
  {| sync := newSynchronizer; WriterDb := emptyStore; trace := [] |}.

(** The world after epoch 0 went through, a block in every slot. *)
Definition afterEpoch0 : World := snd (syncEpoch cfg2 (node [] 0) 0 fresh).



(** The kill channel fires at the first check of the step only. *)
Definition killedOnce : Env :=
  withKill (fun cp => match cp with CpAssignments => true | _ => false end)
           (node [] 0).

(** The kill channel fires at the check after the fetch loop only. *)
Definition killedLate : Env :=
  withKill (fun cp => match cp with CpFetched => true | _ => false end)
           (node [] 0).

(** The chain node has the headers but answers nil, without an error, for
    every body. *)
Definition bodiless : Env := withBodies (fun _ => (None, None)) (node [] 5).

(** The header of slot 2 cannot be fetched. *)
Definition flaky : Env :=
  withHeaders (fun slot => if slot =? 2 then (None, Some "timeout"%string)
                           else (Some (headerAt slot), None)) (node [] 0).


End Examples.

(** ** Further vocabulary: the worker loop, the fetch loop, the slot page *)

Module Behaviour.
Import Indexer Specs.

(** One iteration of the [for] loop of [runSync] (lines 85-107): [Some] is
    the way the loop is left, [None] is "go round again". *)
Definition loopStep (cfg : Config) (env : Env) (w : World)
    : option LoopExit * World :=
  let syncEpoch_ := currentEpoch (sync w) in
  let w := emit (EvLog (LogSynchronizing syncEpoch_)) w in
  match syncEpoch cfg env syncEpoch_ w with
  | (Panics msg, w) => (Some (LoopPanic msg), w)
  | (Hangs, w) => (Some LoopPending, w)
  | (Returned done err, w) =>
      let cooldown (w : World) :=
        let (killed, w) :=
          checkKillChan (killArrives env CpCooldown)
                        (SyncEpochCooldown cfg) w in
        if killed then (Some (LoopBreak false), w) else (None, w) in
      if done then
        let finalizedEpoch := getFinalizedHead env in
        let syncEpoch_ := u64 (syncEpoch_ + 1) in
        let w := withSync (setCurrentEpoch syncEpoch_) w in
        if toInt64 syncEpoch_ >? finalizedEpoch
        then (Some (LoopBreak true), w)
        else cooldown w
      else
        match err with
        | Some e =>
            let w := emit (EvLog (LogRetry syncEpoch_ e)) w in
            cooldown (emit (EvSleep 10) w)
        | None => cooldown w
        end
  end.

(** The cache entry the fetch loop builds for a slot out of the replies of
    the chain node (lines 162-181), when both replies are there. *)
Definition fetchedBlock (env : Env) (slot : Z) : option CacheBlock :=
  match GetBlockHeaderBySlot env slot with
  | (Some hd, None) =>
      match GetBlockBodyByBlockroot env (hdrRoot hd) with
      | (Some body, None) =>
          Some {| Root := hdrRoot hd; Slot := slot; header := Header hd;
                  block := body |}
      | _ => None
      end
  | _ => None
  end.

(** The chain node has an answer for the slot: no header, or a header and
    the body that goes with it, and no error. *)
Definition nodeAnswers (env : Env) (slot : Z) : Prop :=
  match GetBlockHeaderBySlot env slot with
  | (_, Some _) => False
  | (None, None) => True
  | (Some hd, None) =>
      exists body, GetBlockBodyByBlockroot env (hdrRoot hd) = (Some body, None)
  end.

(** Nobody parks on the kill channel during the iteration. *)
Definition quiet (env : Env) : Prop := forall cp, killArrives env cp = false.

(** Storage does not fail during the iteration. *)
Definition faultless (env : Env) : Prop :=
  BeginxFault env = None /\ persistFault env = None /\
  setStateFault env = None /\ CommitFault env = None.

(** Every entry of the cache carries, in its [Slot] field, the slot it is
    filed under. *)
Definition keyed (cache : gmap Z CacheBlock) : Prop :=
  forall k cb, cache !! k = Some cb -> Slot cb = k.

(** The storage operations on a stretch of trace, in order. *)
Definition txEvents (evs : list Event) : list Event := List.filter isTx evs.

(** The ways a step may talk to storage: not at all, or one transaction
    that is opened, written in order, and closed. *)
Definition txProtocol (epoch : Z) : list (list Event) :=
  [ [];
    [EvTx TxBegin false];
    [EvTx TxBegin true; EvTx (TxPersist epoch) false; EvTx TxRollback true];
    [EvTx TxBegin true; EvTx (TxPersist epoch) true;
     EvTx (TxSetState epoch) false; EvTx TxRollback true];
    [EvTx TxBegin true; EvTx (TxPersist epoch) true;
     EvTx (TxSetState epoch) true; EvTx TxCommit false; EvTx TxRollback true];
    [EvTx TxBegin true; EvTx (TxPersist epoch) true;
     EvTx (TxSetState epoch) true; EvTx TxCommit true; EvTx TxRollback false] ].

(** The slots of the window of [epoch] above the high-water mark [mark], in
    ascending order: the headers a step has to ask for. *)
Definition slotsToFetch (cfg : Config) (epoch mark : Z) : list Z :=
  List.filter (fun slot => mark <? slot)
              (seqZ (epoch * SlotsPerEpoch cfg) (SlotsPerEpoch cfg * 2)).

(** [err != nil || len(slotOrHash) != 64] is false: the stripped parameter
    is taken as a block root. *)
Definition isBlockRoot (slotOrHash : string) : bool :=
  match Handlers.DecodeString slotOrHash with
  | Some _ => Nat.eqb (String.length slotOrHash) 64
  | None => false
  end.

End Behaviour.

Module SlotPage.

(** [blockData.Blobs.Data[i]], the fields the page uses. *)
Record BlobSidecar := {
  Index : Z;
  KzgCommitment : bytes;
  KzgProof : bytes;
  Blob : bytes;
}.

(** [models.SlotPageBlob] *)
Record SlotPageBlob := {
  pageIndex : Z;
  pageKzgCommitment : bytes;
  pageKzgProof : bytes;
  pageBlob : bytes;
  BlobShort : bytes;
  IsShort : bool;
}.

(** The body of the loop at lines 346-359 of [getSlotPageBlockData]. *)
Definition blobPageData (blob : BlobSidecar) : SlotPageBlob :=
  if (512 <? Z.of_nat (length (Blob blob)))%Z
  then {| pageIndex := u64 (Index blob);
          pageKzgCommitment := KzgCommitment blob;
          pageKzgProof := KzgProof blob;
          pageBlob := Blob blob;
          BlobShort := take 512 (Blob blob);
          IsShort := true |}
  else {| pageIndex := u64 (Index blob);
          pageKzgCommitment := KzgCommitment blob;
          pageKzgProof := KzgProof blob;
          pageBlob := Blob blob;
          BlobShort := Blob blob;
          IsShort := false |}.

(** Lines 342-361: [BlobsCount] and [Blobs] of the page, left at their zero
    values before the Deneb fork and when the block has no blob list. *)
Definition slotPageBlobs (epoch DenebForkEpoch : Z)
    (blobs : option (list BlobSidecar)) : Z * list SlotPageBlob :=
  match blobs with
  | Some data =>
      if (DenebForkEpoch <=? epoch)%Z
      then (u64 (Z.of_nat (length data)), map blobPageData data)
      else (0%Z, [])
  | None => (0%Z, [])
  end.

End SlotPage.

Module Examples2.
Import Indexer Specs Examples Behaviour.

(** Epoch 2 persisted from the worker's fresh cache: the cursor stands at 2. *)
Definition afterEpoch2 : World := snd (syncEpoch cfg2 (node [] 9) 2 fresh).

(** Epoch 0 tried on a store that refuses the commit. *)
Definition afterFault : World :=
  snd (syncEpoch cfg2 (withCommitFault "disk full" (node [] 0)) 0 fresh).

(** A worker started anew on the store epoch 2 left: cursor at 2, cache
    and high-water mark reset. *)
Definition restarted : World :=
  {| sync := newSynchronizer; WriterDb := WriterDb afterEpoch2; trace := [] |}.

(** A blob of 600 bytes and one of 3. *)
Definition bigBlob : SlotPage.BlobSidecar :=
  {| SlotPage.Index := 0; SlotPage.KzgCommitment := [];
     SlotPage.KzgProof := []; SlotPage.Blob := replicate 600 Byte.x01 |}.
Definition smallBlob : SlotPage.BlobSidecar :=
  {| SlotPage.Index := 1; SlotPage.KzgCommitment := [];
     SlotPage.KzgProof := [];
     SlotPage.Blob := [Byte.x01; Byte.x02; Byte.x03] |}.

(** A chain node that has no assignments: nil, and no error. *)
Definition dutiless : Env :=
  {| GetEpochAssignments := fun _ => (None, None);
     GetBlockHeaderBySlot := GetBlockHeaderBySlot (node [] 0);
     GetBlockBodyByBlockroot := GetBlockBodyByBlockroot (node [] 0);
     loadValidatorStats := loadValidatorStats (node [] 0);
     aggregateEpochVotes := tally;
     BeginxFault := None; persistFault := None;
     setStateFault := None; CommitFault := None;
     getFinalizedHead := 0;
     killArrives := fun _ => false |}.

(** A root of 64 hex characters. *)
Definition root64 : string :=
  "00112233445566778899aabbccddeeff00112233445566778899AABBCCDDEEFF".

End Examples2.

Import Indexer Specs Examples.

(** * Properties *)

(** ** Machine integers and slot ranges *)

Lemma u64_small z : 0 <= z < 2 ^ 64 -> u64 z = z.
Proof. intros H. unfold u64. apply Z.mod_small. exact H. Qed.

Lemma firstSlotOf_fits cfg e :
  windowFits cfg e -> firstSlotOf cfg e = e * SlotsPerEpoch cfg.
Proof.
  intros (He & Hs & Hb). unfold firstSlotOf. apply u64_small. nia.
Qed.

Lemma epochLastSlot_fits cfg e :
  windowFits cfg e ->
  epochLastSlot cfg e = e * SlotsPerEpoch cfg + SlotsPerEpoch cfg - 1.
Proof.
  intros H. unfold epochLastSlot. rewrite firstSlotOf_fits by exact H.
  destruct H as (He & Hs & Hb). apply u64_small. nia.
Qed.

Lemma windowLastSlot_fits cfg e :
  windowFits cfg e ->
  windowLastSlot cfg e = e * SlotsPerEpoch cfg + SlotsPerEpoch cfg * 2 - 1.
Proof.
  intros H. unfold windowLastSlot. rewrite firstSlotOf_fits by exact H.
  destruct H as (He & Hs & Hb). apply u64_small. nia.
Qed.

Section ForSlots.
Context {S R : Type} (body : Z -> S -> S + R).

(** Without wrap-around the budget is enough and the loop visits
    [first], [first + 1], ..., [last] in this order. *)
Lemma forSlots_steps (n : nat) : forall first last s,
  0 <= first -> last + 1 < 2 ^ 64 -> first + Z.of_nat n = last + 1 ->
  forSlots body (Datatypes.S n) first last s
  = Some (foldSlots body (seqZ first (Z.of_nat n)) s).
Proof.
  induction n as [|n IH]; intros first last s Hf Hl Hn.
  - simpl. replace (last <? first) with true by (symmetry; apply Z.ltb_lt; lia).
    reflexivity.
  - cbn [forSlots].
    replace (last <? first) with false by (symmetry; apply Z.ltb_ge; lia).
    rewrite seqZ_cons by lia. cbn [foldSlots].
    destruct (body first s) as [s'|r]; [|reflexivity].
    rewrite u64_small by lia.
    replace (Z.pred (Z.of_nat (Datatypes.S n))) with (Z.of_nat n) by lia.
    replace (Z.succ first) with (first + 1) by lia.
    apply IH; lia.
Qed.

Lemma forSlots_range first last s :
  0 <= first -> first <= last + 1 -> last + 1 < 2 ^ 64 ->
  forSlots body (slotBudget first last) first last s
  = Some (foldSlots body (seqZ first (last + 1 - first)) s).
Proof.
  intros Hf Hle Hl. unfold slotBudget.
  rewrite forSlots_steps with (last := last); try lia.
  rewrite Z2Nat.id by lia. reflexivity.
Qed.

(** An invariant of the body is an invariant of the loop, wrap or not. *)
Lemma forSlots_invariant (P : S -> Prop) (Q : R -> Prop) :
  (forall slot s, P s ->
     match body slot s with inl s' => P s' | inr r => Q r end) ->
  forall fuel slot last s, P s ->
    match forSlots body fuel slot last s with
    | Some (inl s') => P s'
    | Some (inr r) => Q r
    | None => True
    end.
Proof.
  intros Hbody. induction fuel as [|fuel IH]; intros slot last s Hs.
  - exact I.
  - cbn [forSlots]. destruct (last <? slot); [exact Hs|].
    specialize (Hbody slot s Hs).
    destruct (body slot s) as [s'|r]; [apply IH; exact Hbody|exact Hbody].
Qed.

(** The same over a list of slots, the body only trusted on the slots
    of the list. *)
Lemma foldSlots_invariant (P : S -> Prop) (Q : R -> Prop) (slots : list Z) :
  (forall slot s, slot ∈ slots -> P s ->
     match body slot s with inl s' => P s' | inr r => Q r end) ->
  forall s, P s ->
    match foldSlots body slots s with
    | inl s' => P s'
    | inr r => Q r
    end.
Proof.
  induction slots as [|x xs IH]; intros Hbody s Hs.
  - exact Hs.
  - cbn [foldSlots].
    pose proof (Hbody x s (list_elem_of_here x xs) Hs) as Hx.
    destruct (body x s) as [s'|r]; [|exact Hx].
    apply IH; [|exact Hx].
    intros slot s0 Hin. apply Hbody. apply list_elem_of_further. exact Hin.
Qed.
End ForSlots.

(** ** C1: isEpochAhead *)

(** C1, as the code has it: [isEpochAhead] answers true exactly when a worker
    is running and the given epoch lies ahead of the worker's current epoch
    (the current epoch is strictly below it). *)
Theorem isEpochAhead_iff (s : synchronizerState) (epoch : Z) :
  isEpochAhead s epoch = true <-> running s = true /\ currentEpoch s < epoch.
Proof.
  unfold isEpochAhead. destruct (running s).
  - destruct (Z.ltb_spec (currentEpoch s) epoch) as [Hlt|Hge].
    + split; [intros _; split; [reflexivity|exact Hlt] | reflexivity].
    + split; [discriminate | intros [_ Hlt]; lia].
  - split; [discriminate | intros [Hr _]; discriminate].
Qed.

(** C1, as stated, fails: a running worker at epoch 5 is past epoch 3, and
    the query answers false. *)
Lemma isEpochAhead_not_exceeds :
  let s := setRunning true (setCurrentEpoch 5 newSynchronizer) in
  ~ (isEpochAhead s 3 = true <-> running s = true /\ currentEpoch s > 3).
Proof.
  intros s [_ Hback].
  assert (H : isEpochAhead s 3 = true) by (apply Hback; split; reflexivity).
  vm_compute in H. discriminate.
Qed.

(** ** C5: the idempotent skip *)

(** C5: for an epoch storage reports as synchronized, [syncEpoch] returns
    done and leaves the whole world as it was (no request on the trace, no
    write, the cache untouched), so a second call does the same. *)
Theorem syncEpoch_skip cfg env1 env2 e w :
  IsEpochSynchronized (WriterDb w) e = true ->
  syncEpoch cfg env1 e w = (Returned true None, w) /\
  syncEpoch cfg env2 e (snd (syncEpoch cfg env1 e w)) = (Returned true None, w).
Proof.
  intros H.
  assert (Hstep : forall env, syncEpoch cfg env e w = (Returned true None, w)).
  { intros env. unfold syncEpoch, loadEpoch. rewrite H. reflexivity. }
  split; [apply Hstep|]. rewrite Hstep. cbn [snd]. apply Hstep.
Qed.

(** A second call on a synchronized epoch: epoch 0 after it went through. *)
Lemma syncEpoch_skip_witness :
  IsEpochSynchronized (WriterDb afterEpoch0) 0 = true /\
  syncEpoch cfg2 (node [] 0) 0 afterEpoch0 = (Returned true None, afterEpoch0) /\
  syncEpoch cfg2 (node [1] 0) 0
            (snd (syncEpoch cfg2 (node [] 0) 0 afterEpoch0))
  = (Returned true None, afterEpoch0).
Proof.
  split; [vm_compute; reflexivity|].
  apply (syncEpoch_skip cfg2 (node [] 0) (node [1] 0) 0 afterEpoch0).
  vm_compute; reflexivity.
Defined.

(** ** C6: the target root *)

Section TargetRoot.
Context (cache : gmap Z CacheBlock).


End TargetRoot.

Lemma findFirstBlock_fold cfg e cache :
  windowFits cfg e ->
  findFirstBlock cfg e cache
  = Some (match foldSlots (pickBlock cache)
                  (seqZ (e * SlotsPerEpoch cfg) (SlotsPerEpoch cfg)) tt with
          | inl _ => None
          | inr cb => Some cb
          end).
Proof.
  intros Hfit. unfold findFirstBlock.
  rewrite firstSlotOf_fits, epochLastSlot_fits by exact Hfit.
  destruct Hfit as (He & Hs & Hb).
  rewrite forSlots_range by nia.
  replace (e * SlotsPerEpoch cfg + SlotsPerEpoch cfg - 1 + 1
           - e * SlotsPerEpoch cfg) with (SlotsPerEpoch cfg) by lia.
  destruct (foldSlots _ _ _); reflexivity.
Qed.



(** ** The fetch loop *)

Lemma fetched_refl env visited w : fetched env visited w w [].
Proof.
  constructor; try reflexivity.
  - symmetry. apply app_nil_r.
  - constructor.
  - intros k. left. reflexivity.
Qed.

Lemma fetched_trans env visited w0 w1 w2 evs1 evs2 :
  fetched env visited w0 w1 evs1 -> fetched env visited w1 w2 evs2 ->
  fetched env visited w0 w2 (evs1 ++ evs2).
Proof.
  intros [T1 D1 M1 R1 E1 X1 V1 C1] [T2 D2 M2 R2 E2 X2 V2 C2].
  constructor; try congruence.
  - rewrite T2, T1. symmetry. apply app_assoc.
  - apply Forall_app. split; [exact V1|]. rewrite <- M1. exact V2.
  - intros k. destruct (C2 k) as [Hk|(Hv & Hm & Hh & Hs)].
    + destruct (C1 k) as [Hk1|(Hv & Hm & Hh & Hs)].
      * left. congruence.
      * right. rewrite Hk. auto.
    + right. rewrite <- M1. auto.
Qed.

Ltac fetched_step :=
  constructor; cbn;
  lazymatch goal with
  | |- Forall _ _ => repeat constructor; auto
  | |- forall k, _ \/ _ => try (intros k; left; reflexivity)
  | |- _ => first [reflexivity | rewrite <- app_assoc; reflexivity]
  end.

Lemma fetchSlot_fetched env (visited : Z -> Prop) slot w :
  visited slot ->
  match fetchSlot env slot w with
  | inl w' => exists evs, fetched env visited w w' evs /\
                          Forall (fun ev => isRpcErr ev = false) evs
  | inr (o, w') => exists evs, fetched env visited w w' evs /\ earlyExit o evs
  end.
Proof.
  intros Hvis. unfold fetchSlot.
  destruct (Z.leb_spec slot (cachedSlot (sync w))) as [Hle|Hlt].
  { exists []. split; [apply fetched_refl|constructor]. }
  destruct (GetBlockHeaderBySlot env slot) as [[hd|] [err|]] eqn:Hhdr; cbn.
  - eexists [_]. split; [fetched_step | reflexivity].
  - unfold checkKillChan. cbn.
    destruct (killChan (sync w) || killArrives env (CpSlot slot)); cbn.
    + eexists [_]. split; [fetched_step | repeat constructor].
    + destruct (GetBlockBodyByBlockroot env (hdrRoot hd)) as [[body|] [berr|]];
        cbn.
      * eexists [_; _]. split; [fetched_step | reflexivity].
      * eexists [_; _]. split; [fetched_step | repeat constructor].
        intros k. destruct (decide (slot = k)) as [->|Hne].
        -- right. rewrite lookup_insert_eq. eauto 10.
        -- left. apply lookup_insert_ne. exact Hne.
      * eexists [_; _]. split; [fetched_step | reflexivity].
      * eexists [_; _]. split; [fetched_step | repeat constructor].
  - eexists [_]. split; [fetched_step | reflexivity].
  - eexists [_]. split; [fetched_step | repeat constructor].
Qed.

Lemma earlyExit_app o evs1 evs2 :
  Forall (fun ev => isRpcErr ev = false) evs1 -> earlyExit o evs2 ->
  earlyExit o (evs1 ++ evs2).
Proof.
  intros H1 H2. destruct o as [[|] [err|]| |]; cbn in *; try exact H2;
    apply Forall_app; split; assumption.
Qed.

Section FetchLoop.
Context (env : Env) (visited : Z -> Prop) (w0 : World).


Lemma fetchSlot_step slot w :
  visited slot -> fetchGoing env visited w0 w ->
  match fetchSlot env slot w with
  | inl w' => fetchGoing env visited w0 w'
  | inr r => fetchLeaving env visited w0 r
  end.
Proof.
  intros Hvis (evs & Hf & Hok).
  pose proof (fetchSlot_fetched env visited slot w Hvis) as Hstep.
  destruct (fetchSlot env slot w) as [w'|[o w']].
  - destruct Hstep as (evs' & Hf' & Hok').
    exists (evs ++ evs'). split; [eapply fetched_trans; eassumption|].
    apply Forall_app. split; assumption.
  - destruct Hstep as (evs' & Hf' & Hexit).
    exists (evs ++ evs'). split; [eapply fetched_trans; eassumption|].
    apply earlyExit_app; assumption.
Qed.

(** The loop as the source runs it, wrap or not. *)
Lemma forSlots_fetched fuel slot last :
  (forall k, visited k) ->
  match forSlots (fetchSlot env) fuel slot last w0 with
  | Some (inl w) => fetchGoing env visited w0 w
  | Some (inr r) => fetchLeaving env visited w0 r
  | None => True
  end.
Proof.
  intros Hall. apply (forSlots_invariant (fetchSlot env) (fetchGoing env visited w0)
                          (fetchLeaving env visited w0)).
  - intros k w Hw. apply fetchSlot_step; [apply Hall|exact Hw].
  - exists []. split; [apply fetched_refl|constructor].
Qed.

(** The loop over a list of slots: only these are visited. *)
Lemma foldSlots_fetched (slots : list Z) :
  (forall k, k ∈ slots -> visited k) ->
  match foldSlots (fetchSlot env) slots w0 with
  | inl w => fetchGoing env visited w0 w
  | inr r => fetchLeaving env visited w0 r
  end.
Proof.
  intros Hall.
  apply (foldSlots_invariant (fetchSlot env) (fetchGoing env visited w0)
                           (fetchLeaving env visited w0) slots).
  - intros k w Hk Hw. apply fetchSlot_step; [apply Hall; exact Hk|exact Hw].
  - exists []. split; [apply fetched_refl|constructor].
Qed.
End FetchLoop.

Lemma fetchBlocks_fetched cfg env e visited w :
  visits cfg e visited ->
  match fetchBlocks cfg env e w with
  | Some (inl w') =>
      exists evs, fetched env visited w w' evs /\
                  Forall (fun ev => isRpcErr ev = false) evs
  | Some (inr r) =>
      exists evs, fetched env visited w (snd r) evs /\ earlyExit (fst r) evs
  | None => True
  end.
Proof.
  intros [Hall|[Hfit Hwin]]; unfold fetchBlocks.
  - apply forSlots_fetched. exact Hall.
  - rewrite firstSlotOf_fits, windowLastSlot_fits by exact Hfit.
    pose proof Hfit as (He & Hs & Hb).
    rewrite forSlots_range by nia.
    apply foldSlots_fetched.
    intros k Hk. apply elem_of_seqZ in Hk. apply Hwin. unfold inWindow. lia.
Qed.

Lemma fetchBlocks_ends cfg env e w :
  windowFits cfg e -> fetchBlocks cfg env e w <> None.
Proof.
  intros Hfit. unfold fetchBlocks.
  rewrite firstSlotOf_fits, windowLastSlot_fits by exact Hfit.
  destruct Hfit as (He & Hs & Hb).
  rewrite forSlots_range by nia. discriminate.
Qed.

(** ** Stretches of syncEpoch outside the transaction *)

Lemma fetchEvent_requests visited mark evs :
  Forall (fetchEvent visited mark) evs ->
  Forall (fun slot => visited slot /\ mark < slot) (headerRequests evs) /\
  Forall (fun ev => isTx ev = false) evs.
Proof.
  induction 1 as [|ev evs Hev _ [IH1 IH2]]; [split; constructor|].
  destruct ev as [[ep|slot|root|ref] res| | |]; cbn in Hev; try contradiction;
    (split; [|constructor; [reflexivity|exact IH2]]); cbn.
  - constructor; assumption.
  - exact IH1.
Qed.

Lemma fetched_advanced env visited w0 w evs :
  fetched env visited w0 w evs -> advanced env visited w0 w evs.
Proof.
  intros [T D M R E X V C].
  destruct (fetchEvent_requests _ _ _ V) as [H1 H2].
  constructor; assumption.
Qed.

Lemma advanced_refl env visited w : advanced env visited w w [].
Proof.
  constructor; try reflexivity.
  - symmetry. apply app_nil_r.
  - constructor.
  - constructor.
  - intros k. left. reflexivity.
Qed.

Lemma headerRequests_app evs1 evs2 :
  headerRequests (evs1 ++ evs2) = headerRequests evs1 ++ headerRequests evs2.
Proof. unfold headerRequests. apply omap_app. Qed.

Lemma advanced_trans env visited w0 w1 w2 evs1 evs2 :
  cachedSlot (sync w1) = cachedSlot (sync w0) ->
  advanced env visited w0 w1 evs1 -> advanced env visited w1 w2 evs2 ->
  advanced env visited w0 w2 (evs1 ++ evs2).
Proof.
  intros M1 [T1 D1 R1 E1 X1 V1 N1 C1] [T2 D2 R2 E2 X2 V2 N2 C2].
  constructor; try congruence.
  - rewrite T2, T1. symmetry. apply app_assoc.
  - rewrite headerRequests_app. apply Forall_app. split; [exact V1|].
    rewrite <- M1. exact V2.
  - apply Forall_app. split; assumption.
  - intros k. destruct (C2 k) as [Hk|(Hv & Hm & Hh & Hs)].
    + destruct (C1 k) as [Hk1|(Hv & Hm & Hh & Hs)].
      * left. congruence.
      * right. rewrite Hk. auto.
    + right. rewrite <- M1. auto.
Qed.

Lemma advanced_emit env visited w0 w evs ev :
  headerRequest ev = None -> isTx ev = false ->
  advanced env visited w0 w evs ->
  advanced env visited w0 (emit ev w) (evs ++ [ev]).
Proof.
  intros Hh Ht [T D R E X V N C].
  constructor; cbn; try assumption.
  - rewrite T. symmetry. apply app_assoc.
  - rewrite headerRequests_app. cbn. rewrite Hh. cbn.
    rewrite app_nil_r. exact V.
  - apply Forall_app. split; [exact N|]. constructor; [exact Ht|constructor].
Qed.

Lemma advanced_setKillChan env visited w0 w evs b :
  advanced env visited w0 w evs ->
  advanced env visited w0 (withSync (setKillChan b) w) evs.
Proof. intros [T D R E X V N C]. constructor; cbn; assumption. Qed.

Lemma advanced_setCachedSlot env visited w0 w evs n :
  advanced env visited w0 w evs ->
  advanced env visited w0 (withSync (setCachedSlot n) w) evs.
Proof. intros [T D R E X V N C]. constructor; cbn; assumption. Qed.

Lemma loadEpoch_spec cfg env e visited w :
  visits cfg e visited ->
  match loadEpoch cfg env e w with
  | inl (asg, w1) =>
      IsEpochSynchronized (WriterDb w) e = false /\
      cachedSlot (sync w1) = windowLastSlot cfg e /\
      exists evs, advanced env visited w w1 evs /\
                  Forall (fun ev => isRpcErr ev = false) evs
  | inr (o, w1) =>
      (IsEpochSynchronized (WriterDb w) e = true /\
       o = Returned true None /\ w1 = w) \/
      (IsEpochSynchronized (WriterDb w) e = false /\
       exists evs, advanced env visited w w1 evs /\ earlyExit o evs)
  end.
Proof.
  intros Hvis. unfold loadEpoch.
  destruct (IsEpochSynchronized (WriterDb w) e) eqn:Hsync; [left; auto|].
  assert (Hfirst : forall res,
    advanced env visited w (emit (EvRpc (CallAssignments e) res) w)
             [EvRpc (CallAssignments e) res]).
  { intros res.
    apply (advanced_emit env visited w w [] (EvRpc (CallAssignments e) res)
             eq_refl eq_refl (advanced_refl _ _ _)). }
  destruct (GetEpochAssignments env e) as [[asg|] [err|]]; cbn -[fetchBlocks].
  1, 3: right; split; [reflexivity|]; eexists; split;
    [apply advanced_emit; [reflexivity|reflexivity|apply Hfirst] | reflexivity].
  2: { right; split; [reflexivity|]. eexists; split.
       - apply advanced_emit; [reflexivity|reflexivity|apply Hfirst].
       - repeat constructor. }
  unfold checkKillChan. cbn -[fetchBlocks].
  destruct (killChan (sync w) || killArrives env CpAssignments);
    cbn -[fetchBlocks].
  { right; split; [reflexivity|]. eexists; split.
    - apply advanced_setKillChan. apply Hfirst.
    - repeat constructor. }
  pose proof (fetchBlocks_fetched cfg env e visited
                (emit (EvRpc (CallAssignments e) RpcOk) w) Hvis) as Hloop.
  destruct (fetchBlocks cfg env e _) as [[wf|[o wf]]|]; cbv beta iota.
  - destruct Hloop as (evs & Hf & Hok). split; [reflexivity|].
    split; [reflexivity|]. eexists; split.
    + apply advanced_setCachedSlot.
      eapply advanced_trans; [|apply Hfirst|apply fetched_advanced; exact Hf].
      reflexivity.
    + apply Forall_app. split; [repeat constructor|exact Hok].
  - destruct Hloop as (evs & Hf & Hexit). right; split; [reflexivity|].
    eexists; split.
    + eapply advanced_trans; [|apply Hfirst|apply fetched_advanced; exact Hf].
      reflexivity.
    + apply earlyExit_app; [repeat constructor|exact Hexit].
  - right; split; [reflexivity|]. eexists; split; [apply Hfirst|].
    repeat constructor.
Qed.

(** ** The cache cleanup *)

Lemma evictSlot_lookup slot (cache : gmap Z CacheBlock) :
  exists cache', evictSlot slot cache = inl cache' /\
    forall k, cache' !! k = if decide (k = slot) then None else cache !! k.
Proof.
  unfold evictSlot. destruct (cache !! slot) as [cb|] eqn:Hslot.
  - eexists. split; [reflexivity|]. intros k. destruct (decide (k = slot)) as [->|Hne].
    + apply lookup_delete_eq.
    + apply lookup_delete_ne. congruence.
  - eexists. split; [reflexivity|]. intros k. destruct (decide (k = slot)) as [->|Hne].
    + exact Hslot.
    + reflexivity.
Qed.

Lemma foldSlots_evict (slots : list Z) : forall cache : gmap Z CacheBlock,
  exists cache', foldSlots evictSlot slots cache = inl cache' /\
    forall k, cache' !! k = if decide (k ∈ slots) then None else cache !! k.
Proof.
  induction slots as [|x xs IH]; intros cache.
  - exists cache. split; [reflexivity|]. intros k.
    destruct (decide (k ∈ [])) as [Hin|_]; [|reflexivity].
    apply elem_of_nil in Hin. contradiction.
  - cbn [foldSlots].
    destruct (evictSlot_lookup x cache) as (c1 & -> & Hc1).
    destruct (IH c1) as (c2 & Hfold & Hc2).
    exists c2. split; [exact Hfold|]. intros k. rewrite Hc2, Hc1.
    destruct (decide (k ∈ xs)) as [Hin|Hout].
    + rewrite decide_True by (apply list_elem_of_further; exact Hin). reflexivity.
    + destruct (decide (k = x)) as [->|Hne].
      * rewrite decide_True by apply list_elem_of_here. reflexivity.
      * rewrite decide_False; [reflexivity|].
        intros Hin. apply elem_of_cons in Hin. tauto.
Qed.

(** Without wrap-around the cleanup ends and empties the epoch's own range,
    nothing else. *)
Lemma cleanupCache_fits cfg e (cache : gmap Z CacheBlock) :
  windowFits cfg e ->
  exists cache', cleanupCache cfg e cache = Some cache' /\
    forall k, cache' !! k
              = if decide (inEpoch cfg e k) then None else cache !! k.
Proof.
  intros Hfit. unfold cleanupCache.
  rewrite firstSlotOf_fits, epochLastSlot_fits by exact Hfit.
  pose proof Hfit as (He & Hs & Hb).
  rewrite forSlots_range by nia.
  destruct (foldSlots_evict
              (seqZ (e * SlotsPerEpoch cfg)
                    (e * SlotsPerEpoch cfg + SlotsPerEpoch cfg - 1 + 1
                     - e * SlotsPerEpoch cfg)) cache) as (c' & -> & Hc').
  exists c'. split; [reflexivity|]. intros k. rewrite Hc'.
  destruct (decide (inEpoch cfg e k)) as [Hin|Hout].
  - rewrite decide_True; [reflexivity|]. apply elem_of_seqZ.
    unfold inEpoch in Hin. lia.
  - rewrite decide_False; [reflexivity|]. intros Hin. apply Hout.
    apply elem_of_seqZ in Hin. unfold inEpoch. lia.
Qed.

(** Wrap or not, the cleanup only removes entries. *)
Lemma cleanupCache_shrinks cfg e (cache cache' : gmap Z CacheBlock) :
  cleanupCache cfg e cache = Some cache' ->
  forall k, cache' !! k = None \/ cache' !! k = cache !! k.
Proof.
  unfold cleanupCache. intros Hclean.
  pose proof (forSlots_invariant evictSlot
    (fun c : gmap Z CacheBlock => forall k, c !! k = None \/ c !! k = cache !! k)
    (fun _ => False)) as Hinv.
  specialize (Hinv) with (s := cache) (fuel := slotBudget (firstSlotOf cfg e) (epochLastSlot cfg e))
    (slot := firstSlotOf cfg e) (last := epochLastSlot cfg e).
  destruct (forSlots evictSlot _ _ _ cache) as [[c|[]]|]; [|discriminate].
  injection Hclean as <-. apply Hinv.
  - intros slot c0 Hc0.
    destruct (evictSlot_lookup slot c0) as (c1 & -> & Hc1).
    intros k. rewrite Hc1.
    destruct (decide (k = slot)); [left; reflexivity|apply Hc0].
  - intros k. right. reflexivity.
Qed.

(** ** The storage transaction *)

Lemma persistEpoch_spec env e blocks stats votes w :
  let r := persistEpoch env e blocks stats votes w in
  sync (snd r) = sync w /\
  exists evs,
    trace (snd r) = trace w ++ evs /\
    Forall (fun ev => isTx ev = true) evs /\
    match fst r with
    | Some err =>
        isStorageError err = true /\ WriterDb (snd r) = WriterDb w /\
        existsb isFailedStep evs = true
    | None =>
        existsb isFailedStep evs = false /\
        WriterDb (snd r)
        = {| epochs := <[e := {| recBlocks := blocks; recStats := stats;
                                 recVotes := votes |}]> (epochs (WriterDb w));
             syncstate := Some e |}
    end.
Proof.
  unfold persistEpoch, persistEpochData, SetExplorerState.
  destruct (BeginxFault env) as [e1|];
    [|destruct (persistFault env) as [e2|];
      [|destruct (setStateFault env) as [e3|];
        [|destruct (CommitFault env) as [e4|]]]];
    cbn; (split; [reflexivity|]); eexists;
    (split; [rewrite <- ?app_assoc; reflexivity|]);
    cbn; (split; [repeat constructor|]); repeat split; reflexivity.
Qed.

Lemma isTx_quiet evs :
  Forall (fun ev => isTx ev = true) evs ->
  headerRequests evs = [] /\ Forall (fun ev => isRpcErr ev = false) evs.
Proof.
  induction 1 as [|ev evs Hev _ [IH1 IH2]]; [split; constructor|].
  destruct ev; try discriminate. cbn. split; [exact IH1|].
  constructor; [reflexivity|exact IH2].
Qed.

Lemma noTx_noFailedStep evs :
  Forall (fun ev => isTx ev = false) evs -> existsb isFailedStep evs = false.
Proof.
  induction 1 as [|ev evs Hev _ IH]; [reflexivity|].
  cbn. rewrite IH. destruct ev as [| [] [] | |]; try discriminate; reflexivity.
Qed.

(** ** The second half of syncEpoch *)

Ltac frame_goals :=
  repeat match goal with
         | |- _ /\ _ => split
         | |- earlyExit _ _ => progress cbn
         | |- Forall _ [] => constructor
         | |- Forall _ (_ :: _) => constructor
         | |- Forall _ _ => assumption
         | |- _ = _ => first [reflexivity | assumption]
         end.

Lemma finishEpoch_spec cfg env e asg w1 :
  let r := finishEpoch cfg env e asg w1 in
  exists evs,
    trace (snd r) = trace w1 ++ evs /\
    headerRequests evs = [] /\
    Forall (fun ev => isRpcErr ev = false) evs /\
    (running (sync (snd r)) = running (sync w1) /\
     currentEpoch (sync (snd r)) = currentEpoch (sync w1) /\
     runMutex (sync (snd r)) = runMutex (sync w1) /\
     cachedSlot (sync (snd r)) = cachedSlot (sync w1)) /\
    ((WriterDb (snd r) = WriterDb w1 /\
      cachedBlocks (sync (snd r)) = cachedBlocks (sync w1) /\
      ((Forall (fun ev => isTx ev = false) evs /\ earlyExit (fst r) evs) \/
       (existsb isFailedStep evs = true /\
        exists err, fst r = Returned false (Some err) /\
                    isStorageError err = true)))
     \/
     (existsb isFailedStep evs = false /\
      (exists rec, WriterDb (snd r)
                   = {| epochs := <[e := rec]> (epochs (WriterDb w1));
                        syncstate := Some e |}) /\
      match cleanupCache cfg e (cachedBlocks (sync w1)) with
      | None => fst r = Hangs /\
                cachedBlocks (sync (snd r)) = cachedBlocks (sync w1)
      | Some c => fst r = Returned true None /\
                  cachedBlocks (sync (snd r)) = c
      end)).
Proof.
  unfold finishEpoch, checkKillChan. cbn -[findFirstBlock cleanupCache persistEpoch].
  destruct (killChan (sync w1) || killArrives env CpFetched);
    cbn -[findFirstBlock cleanupCache persistEpoch].
  { exists []. rewrite app_nil_r. frame_goals. left. frame_goals. left. frame_goals. }
  destruct (loadValidatorStats env (DependendStateRef asg)) as [vstats|];
    cbn -[findFirstBlock cleanupCache persistEpoch].
  2: { eexists [_]. frame_goals. left. frame_goals. left. frame_goals. }
  destruct (killChan (sync w1) || killArrives env CpStats);
    cbn -[findFirstBlock cleanupCache persistEpoch].
  { eexists [_]. frame_goals. left. frame_goals. left. frame_goals. }
  destruct (findFirstBlock cfg e (cachedBlocks (sync w1))) as [firstBlock|];
    cbn -[cleanupCache persistEpoch].
  2: { eexists [_]. frame_goals. left. frame_goals. left. frame_goals. }
  match goal with
  | |- context [persistEpoch ?env ?e ?b ?s ?v ?w] =>
      pose proof (persistEpoch_spec env e b s v w) as Hp;
      destruct (persistEpoch env e b s v w) as [[err|] w2]
  end; cbn -[cleanupCache] in *;
    destruct Hp as (Hsync & evs & Htrace & Htx & Hres);
    destruct (isTx_quiet evs Htx) as [Hhdr Hok].
  - destruct Hres as (Herr & Hdb & Hfail).
    exists (EvRpc (CallValidatorStats (DependendStateRef asg)) RpcOk :: evs).
    rewrite Htrace, Hsync. cbn. rewrite <- app_assoc.
    frame_goals. left. frame_goals. right. frame_goals. eauto.
  - destruct Hres as (Hfail & Hdb).
    exists (EvRpc (CallValidatorStats (DependendStateRef asg)) RpcOk :: evs).
    rewrite Hsync. cbn -[cleanupCache].
    destruct (cleanupCache cfg e (cachedBlocks (sync w1))) as [c|];
      cbn; rewrite Htrace, ?Hsync; cbn; rewrite <- app_assoc;
      frame_goals; right; frame_goals; eexists; exact Hdb.
Qed.

(** The votes a persisting step stores are the aggregator's, run on the
    cache as the fetch loop left it and on the target root of C6. *)
Lemma finishEpoch_aggregates cfg env e asg w1 w' :
  finishEpoch cfg env e asg w1 = (Returned true None, w') ->
  exists firstBlock stats,
    findFirstBlock cfg e (cachedBlocks (sync w1)) = Some firstBlock /\
    recVotes <$> (epochs (WriterDb w') !! e)
    = Some (aggregateEpochVotes env (cachedBlocks (sync w1)) e stats
              (targetRootOf (firstSlotOf cfg e) firstBlock) false).
Proof.
  unfold finishEpoch, checkKillChan, persistEpoch, persistEpochData,
    SetExplorerState.
  cbn -[findFirstBlock cleanupCache].
  destruct (killChan (sync w1) || killArrives env CpFetched);
    cbn -[findFirstBlock cleanupCache]; [discriminate|].
  destruct (loadValidatorStats env (DependendStateRef asg)) as [vstats|];
    cbn -[findFirstBlock cleanupCache]; [|discriminate].
  destruct (killChan (sync w1) || killArrives env CpStats);
    cbn -[findFirstBlock cleanupCache]; [discriminate|].
  destruct (findFirstBlock cfg e (cachedBlocks (sync w1))) as [firstBlock|];
    cbn -[cleanupCache]; [|discriminate].
  destruct (BeginxFault env); cbn -[cleanupCache]; [discriminate|].
  destruct (persistFault env); cbn -[cleanupCache]; [discriminate|].
  destruct (setStateFault env); cbn -[cleanupCache]; [discriminate|].
  destruct (CommitFault env); cbn -[cleanupCache]; [discriminate|].
  destruct (cleanupCache cfg e (cachedBlocks (sync w1))) as [c|];
    [|discriminate].
  intros H. injection H as <-. cbn.
  eexists _, _. split; [reflexivity|].
  rewrite lookup_insert_eq. reflexivity.
Qed.

(** ** syncEpoch as a whole *)

Lemma syncEpoch_spec cfg env e visited w :
  visits cfg e visited ->
  let r := syncEpoch cfg env e w in
  (IsEpochSynchronized (WriterDb w) e = true /\ r = (Returned true None, w)) \/
  (IsEpochSynchronized (WriterDb w) e = false /\
   exists evs,
     trace (snd r) = trace w ++ evs /\
     Forall (fun slot => visited slot /\ cachedSlot (sync w) < slot)
            (headerRequests evs) /\
     ((WriterDb (snd r) = WriterDb w /\ cacheGrown env visited w (snd r) /\
       ((Forall (fun ev => isTx ev = false) evs /\ earlyExit (fst r) evs) \/
        (Forall (fun ev => isRpcErr ev = false) evs /\
         existsb isFailedStep evs = true /\
         exists err, fst r = Returned false (Some err) /\
                     isStorageError err = true)))
      \/
      (Forall (fun ev => isRpcErr ev = false) evs /\
       existsb isFailedStep evs = false /\
       (exists rec, WriterDb (snd r)
                    = {| epochs := <[e := rec]> (epochs (WriterDb w));
                         syncstate := Some e |}) /\
       cachedSlot (sync (snd r)) = windowLastSlot cfg e /\
       exists asg w1,
         loadEpoch cfg env e w = inl (asg, w1) /\ cacheGrown env visited w w1 /\
         match cleanupCache cfg e (cachedBlocks (sync w1)) with
         | None => fst r = Hangs /\
                   cachedBlocks (sync (snd r)) = cachedBlocks (sync w1)
         | Some c => fst r = Returned true None /\
                     cachedBlocks (sync (snd r)) = c
         end))).
Proof.
  intros Hvis r. subst r. unfold syncEpoch.
  pose proof (loadEpoch_spec cfg env e visited w Hvis) as Hload.
  destruct (loadEpoch cfg env e w) as [[asg w1]|[o w1]].
  - destruct Hload as (Hsync & Hmark & evs1 & Hadv & Hok1). right.
    split; [exact Hsync|].
    destruct (finishEpoch_spec cfg env e asg w1)
      as (evs2 & Htrace & Hhdr & Hok2 & (_ & _ & _ & Hslot) & Hcases).
    destruct Hadv as [T D R E X V N C].
    exists (evs1 ++ evs2). split; [rewrite Htrace, T; symmetry; apply app_assoc|].
    split; [rewrite headerRequests_app, Hhdr, app_nil_r; exact V|].
    destruct Hcases as [(Hdb & Hcache & Hexit)|(Hfail & Hrec & Hclean)].
    + left. split; [congruence|]. split.
      { intros k. rewrite Hcache. apply C. }
      destruct Hexit as [[Hnotx Hearly]|(Hfail & Herr)].
      * left. split; [apply Forall_app; split; assumption|].
        apply earlyExit_app; assumption.
      * right. split; [apply Forall_app; split; assumption|].
        split; [|exact Herr]. rewrite existsb_app, Hfail. apply orb_true_r.
    + right. split; [apply Forall_app; split; assumption|].
      split; [rewrite existsb_app, Hfail, (noTx_noFailedStep _ N); reflexivity|].
      split; [rewrite <- D; exact Hrec|].
      split; [congruence|].
      exists asg, w1. split; [reflexivity|]. split; [exact C|exact Hclean].
  - destruct Hload as [(Hsync & -> & ->)|(Hsync & evs & Hadv & Hexit)].
    + left. split; [exact Hsync|reflexivity].
    + right. split; [exact Hsync|]. exists evs.
      destruct Hadv as [T D R E X V N C].
      split; [exact T|]. split; [exact V|]. left.
      split; [exact D|]. split; [exact C|]. left. split; assumption.
Qed.

Lemma visits_any cfg e : visits cfg e (fun _ => True).
Proof. left. intros k. exact I. Qed.

Lemma visits_window cfg e : windowFits cfg e -> visits cfg e (inWindow cfg e).
Proof. intros Hfit. right. split; [exact Hfit|]. intros k Hk. exact Hk. Qed.

Lemma noErr_quiet evs :
  Forall (fun ev => isRpcErr ev = false) evs -> existsb isRpcErr evs = false.
Proof.
  induction 1 as [|ev evs Hev _ IH]; [reflexivity|]. cbn. rewrite Hev, IH.
  reflexivity.
Qed.

Lemma newEvents_app w w' evs : trace w' = trace w ++ evs -> newEvents w w' = evs.
Proof. intros H. unfold newEvents. rewrite H. apply drop_app_length. Qed.

Lemma newEvents_same w : newEvents w w = [].
Proof. apply newEvents_app. symmetry. apply app_nil_r. Qed.

(** ** C4: the transaction is all or nothing *)

(** C4: when one of the four transaction steps of [syncEpoch] (open, persist
    of the epoch data, cursor write, commit) fails, the step returns a
    storage error and the store is as it was before the call: neither the
    epoch's records nor the cursor moved.  And whatever the call does, the
    store is either untouched or differs by exactly one commit that holds
    both the epoch's record and the cursor set to this epoch. *)
Theorem syncEpoch_atomic cfg env e w :
  let r := syncEpoch cfg env e w in
  (existsb isFailedStep (newEvents w (snd r)) = true ->
   WriterDb (snd r) = WriterDb w /\
   exists err, fst r = Returned false (Some err) /\ isStorageError err = true) /\
  (WriterDb (snd r) = WriterDb w \/
   exists rec, WriterDb (snd r)
               = {| epochs := <[e := rec]> (epochs (WriterDb w));
                    syncstate := Some e |}).
Proof.
  intros r.
  destruct (syncEpoch_spec cfg env e _ w (visits_any cfg e))
    as [(_ & Hr)|(_ & evs & Htrace & _ & Hcases)]; fold r in Hr || idtac.
  - rewrite Hr. cbn. split; [|left; reflexivity].
    rewrite newEvents_same. discriminate.
  - fold r in Htrace, Hcases. rewrite (newEvents_app _ _ _ Htrace).
    destruct Hcases as [(Hdb & _ & [[Hnotx _]|(_ & _ & Herr)])
                       |(_ & Hfail & Hrec & _)].
    + split; [|left; exact Hdb].
      rewrite (noTx_noFailedStep _ Hnotx). discriminate.
    + split; [|left; exact Hdb]. intros _. split; assumption.
    + split; [|right; exact Hrec]. rewrite Hfail. discriminate.
Qed.

(** A commit that fails: epoch 0 is fetched and aggregated, the storage
    error comes back and the store stays empty. *)
Lemma syncEpoch_atomic_witness :
  let r := syncEpoch cfg2 (withCommitFault "disk full" (node [] 0)) 0 fresh in
  existsb isFailedStep (newEvents fresh (snd r)) = true /\
  WriterDb (snd r) = emptyStore /\
  exists err, fst r = Returned false (Some err) /\ isStorageError err = true.
Proof.
  intros r. split; [vm_compute; reflexivity|].
  apply (proj1 (syncEpoch_atomic cfg2 (withCommitFault "disk full" (node [] 0))
                                 0 fresh)).
  vm_compute; reflexivity.
Defined.

(** ** C7: eviction of the epoch's own range *)

(** C7: when [syncEpoch] goes through the full cycle for an epoch whose
    window does not wrap, the cache it leaves is the cache the fetch loop
    ended with (the world [w1] that [loadEpoch] hands on), minus the slots
    of the epoch's own range: those are gone, every other entry, and so
    every entry of the lookahead epoch, is the same. *)
Theorem syncEpoch_evicts_own_range cfg env e w :
  windowFits cfg e -> persisted cfg env e w ->
  exists asg w1,
    loadEpoch cfg env e w = inl (asg, w1) /\
    (forall k,
       cachedBlocks (sync (snd (syncEpoch cfg env e w))) !! k
       = if decide (inEpoch cfg e k) then None else cachedBlocks (sync w1) !! k) /\
    (forall k, inEpoch cfg (e + 1) k ->
       cachedBlocks (sync (snd (syncEpoch cfg env e w))) !! k
       = cachedBlocks (sync w1) !! k).
Proof.
  intros Hfit [Hsync Hdone].
  destruct (syncEpoch_spec cfg env e _ w (visits_any cfg e))
    as [(Hsync' & _)|(_ & evs & _ & _ & Hcases)]; [congruence|].
  destruct Hcases as [(_ & _ & [[_ Hearly]|(_ & _ & err & Herr & _)])
                     |(_ & _ & _ & _ & asg & w1 & Hload & _ & Hclean)].
  - rewrite Hdone in Hearly. contradiction.
  - congruence.
  - exists asg, w1. split; [exact Hload|].
    destruct (cleanupCache_fits cfg e (cachedBlocks (sync w1)) Hfit)
      as (c & Hc & Hlookup).
    rewrite Hc in Hclean. destruct Hclean as [_ ->].
    split; [exact Hlookup|].
    intros k Hk. rewrite Hlookup. rewrite decide_False; [reflexivity|].
    unfold inEpoch in *. destruct Hfit as (He & Hs & Hb). nia.
Qed.

(** Epoch 0 on a node with a block in every slot: slot 1 is evicted, slots
    2 and 3 of the lookahead epoch stay. *)
Lemma syncEpoch_evicts_own_range_witness :
  windowFits cfg2 0 /\ persisted cfg2 (node [] 0) 0 fresh /\
  exists asg w1,
    loadEpoch cfg2 (node [] 0) 0 fresh = inl (asg, w1) /\
    cachedBlocks (sync afterEpoch0) !! 1 = None /\
    cachedBlocks (sync afterEpoch0) !! 2 = cachedBlocks (sync w1) !! 2 /\
    cachedBlocks (sync afterEpoch0) !! 3 = cachedBlocks (sync w1) !! 3.
Proof.
  assert (Hfit : windowFits cfg2 0) by (unfold windowFits; simpl; lia).
  assert (Hp : persisted cfg2 (node [] 0) 0 fresh)
    by (split; vm_compute; reflexivity).
  split; [exact Hfit|]. split; [exact Hp|].
  destruct (syncEpoch_evicts_own_range cfg2 (node [] 0) 0 fresh Hfit Hp)
    as (asg & w1 & Hload & Hown & Hnext).
  exists asg, w1. split; [exact Hload|]. unfold afterEpoch0. split; [|split].
  - rewrite Hown. apply decide_True. unfold inEpoch; simpl; lia.
  - apply Hnext. unfold inEpoch; simpl; lia.
  - apply Hnext. unfold inEpoch; simpl; lia.
Defined.

(** ** C8: absent headers are skipped, errors abort *)

(** C8: a slot whose header request comes back nil without an error is
    skipped: the loop body goes on to the next slot with nothing but the
    request added to the trace, and [syncEpoch], however it ends, leaves no
    cache entry at such a slot; and as soon as a chain-node call of the
    step comes back with an error, the step returns not-done with an error
    and the store untouched, which is what the worker loop retries. *)
Theorem fetch_absent_skipped_errors_abort cfg env e w :
  let r := syncEpoch cfg env e w in
  (forall slot, GetBlockHeaderBySlot env slot = (None, None) ->
     (forall w0, cachedSlot (sync w0) < slot ->
        fetchSlot env slot w0 = inl (emit (EvRpc (CallHeader slot) RpcNil) w0)) /\
     (cachedBlocks (sync w) !! slot = None ->
        cachedBlocks (sync (snd r)) !! slot = None)) /\
  (existsb isRpcErr (newEvents w (snd r)) = true ->
     (exists err, fst r = Returned false (Some err)) /\
     WriterDb (snd r) = WriterDb w).
Proof.
  intros r.
  pose proof (syncEpoch_spec cfg env e _ w (visits_any cfg e)) as Hspec.
  fold r in Hspec. split.
  - intros slot Habsent. split.
    + intros w0 Hmark. unfold fetchSlot.
      replace (slot <=? cachedSlot (sync w0)) with false
        by (symmetry; apply Z.leb_gt; exact Hmark).
      rewrite Habsent. reflexivity.
    + intros Hnone.
      assert (Hgrown : forall w1, cacheGrown env (fun _ => True) w w1 ->
                                  cachedBlocks (sync w1) !! slot = None).
      { intros w1 Hg. destruct (Hg slot) as [->|(_ & _ & (hd & Hhd) & _)];
          [exact Hnone|congruence]. }
      destruct Hspec as [(_ & ->)|(_ & evs & _ & _ & Hcases)]; [exact Hnone|].
      destruct Hcases as [(_ & Hg & _)
                         |(_ & _ & _ & _ & asg & w1 & _ & Hg & Hclean)].
      * apply Hgrown. exact Hg.
      * specialize (Hgrown w1 Hg).
        destruct (cleanupCache cfg e (cachedBlocks (sync w1))) as [c|] eqn:Hc.
        -- destruct Hclean as [_ ->].
           destruct (cleanupCache_shrinks cfg e _ _ Hc slot) as [H|H];
             congruence.
        -- destruct Hclean as [_ ->]. exact Hgrown.
  - destruct Hspec as [(_ & ->)|(_ & evs & Htrace & _ & Hcases)].
    + cbn. rewrite newEvents_same. discriminate.
    + rewrite (newEvents_app _ _ _ Htrace). intros Herr.
      destruct Hcases as [(Hdb & _ & [[_ Hearly]|(Hok & _)])|(Hok & _)].
      * split; [|exact Hdb].
        destruct (fst r) as [[|] [err|]| |]; cbn in Hearly;
          try contradiction; try (rewrite (noErr_quiet _ Hearly) in Herr;
                                  discriminate).
        eauto.
      * rewrite (noErr_quiet _ Hok) in Herr. discriminate.
      * rewrite (noErr_quiet _ Hok) in Herr. discriminate.
Qed.

(** Epoch 1 on a node without a block in slot 2: the loop body skips the
    slot and the step leaves nothing there; and on a node that fails the
    header of slot 2 the step returns an error. *)
Lemma fetch_absent_skipped_errors_abort_witness :
  (GetBlockHeaderBySlot (node [2] 0) 2 = (None, None) /\
   fetchSlot (node [2] 0) 2 fresh = inl (emit (EvRpc (CallHeader 2) RpcNil) fresh) /\
   cachedBlocks (sync (snd (syncEpoch cfg2 (node [2] 0) 1 fresh))) !! 2 = None) /\
  (existsb isRpcErr (newEvents fresh (snd (syncEpoch cfg2 flaky 0 fresh))) = true /\
   exists err, fst (syncEpoch cfg2 flaky 0 fresh) = Returned false (Some err)).
Proof.
  split.
  - assert (Habsent : GetBlockHeaderBySlot (node [2] 0) 2 = (None, None))
      by (vm_compute; reflexivity).
    split; [exact Habsent|].
    destruct (proj1 (fetch_absent_skipped_errors_abort cfg2 (node [2] 0) 1 fresh)
                    2 Habsent) as [Hskip Hnone].
    split.
    + apply Hskip. vm_compute; reflexivity.
    + apply Hnone. vm_compute; reflexivity.
  - assert (Herr : existsb isRpcErr
                     (newEvents fresh (snd (syncEpoch cfg2 flaky 0 fresh))) = true)
      by (vm_compute; reflexivity).
    split; [exact Herr|].
    apply (proj2 (fetch_absent_skipped_errors_abort cfg2 flaky 0 fresh) Herr).
Defined.

(** ** C9: cache monotonicity *)






(** ** C2: a stop signal seen inside syncEpoch *)

(** After a call of [syncEpoch] that comes back not-done without an error
    (which is what a stop signal seen at a checkpoint inside the step
    gives), the loop goes to its cooldown wait, and with nobody parked on
    the kill channel by then it starts the next iteration at the same
    epoch. *)
Lemma runLoop_goes_on_after_abort cfg env envs w :
  let e := currentEpoch (sync w) in
  let r := syncEpoch cfg env e (emit (EvLog (LogSynchronizing e)) w) in
  fst r = Returned false None ->
  killChan (sync (snd r)) = false ->
  killArrives env CpCooldown = false ->
  runLoop cfg (env :: envs) w = runLoop cfg envs (snd r).
Proof.
  intros e r Hres Hchan Hquiet. cbn [runLoop]. fold e. fold r.
  destruct r as [o w1]. cbn [fst snd] in *. subst o.
  unfold checkKillChan. rewrite Hchan, Hquiet. cbn.
  destruct (0 <? SyncEpochCooldown cfg); reflexivity.
Qed.

(** C2, where the code departs from it: the worker is started at epoch 0
    and a stop signal is waiting at the first checkpoint of the step (then
    none), or at the checkpoint after the fetch loop (then none).  The
    attempt that sees the signal is given up with the store untouched, but
    the loop does not exit: it takes epoch 0 up again, persists it, moves
    the cursor to 1 and ends as complete. *)
Theorem stop_signal_in_step_does_not_stop :
  (fst (syncEpoch cfg2 killedOnce 0 fresh) = Returned false None /\
   WriterDb (snd (syncEpoch cfg2 killedOnce 0 fresh)) = emptyStore /\
   let r := runSync cfg2 [killedOnce; node [] 0] (started 0) in
   fst r = WorkerDone true /\
   currentEpoch (sync (snd r)) = 1 /\
   syncstate (WriterDb (snd r)) = Some 0 /\
   IsEpochSynchronized (WriterDb (snd r)) 0 = true) /\
  (fst (syncEpoch cfg2 killedLate 0 fresh) = Returned false None /\
   WriterDb (snd (syncEpoch cfg2 killedLate 0 fresh)) = emptyStore /\
   let r := runSync cfg2 [killedLate; node [] 0] (started 0) in
   fst r = WorkerDone true /\
   currentEpoch (sync (snd r)) = 1 /\
   syncstate (WriterDb (snd r)) = Some 0 /\
   IsEpochSynchronized (WriterDb (snd r)) 0 = true).
Proof. vm_compute. repeat split. Qed.

(** ** C3: a panic in the loop body *)

Lemma syncEpoch_keeps_running cfg env e w :
  running (sync (snd (syncEpoch cfg env e w))) = running (sync w).
Proof.
  unfold syncEpoch.
  pose proof (loadEpoch_spec cfg env e _ w (visits_any cfg e)) as Hload.
  destruct (loadEpoch cfg env e w) as [[asg w1]|[o w1]].
  - destruct Hload as (_ & _ & evs & Hadv & _).
    destruct (finishEpoch_spec cfg env e asg w1)
      as (evs2 & _ & _ & _ & (Hrun & _) & _).
    rewrite Hrun. apply (adv_running _ _ _ _ _ Hadv).
  - destruct Hload as [(_ & _ & ->)|(_ & evs & Hadv & _)]; [reflexivity|].
    apply (adv_running _ _ _ _ _ Hadv).
Qed.

Lemma runLoop_keeps_running cfg : forall envs w,
  running (sync (snd (runLoop cfg envs w))) = running (sync w).
Proof.
  induction envs as [|env envs IH]; intros w; [reflexivity|].
  cbn [runLoop].
  pose proof (syncEpoch_keeps_running cfg env (currentEpoch (sync w))
                (emit (EvLog (LogSynchronizing (currentEpoch (sync w)))) w))
    as Hstep.
  destruct (syncEpoch cfg env _ _) as [[done err| |] w1]; cbn [snd] in *;
    try exact Hstep.
  assert (Hcool : forall w2, running (sync w2) = running (sync w) ->
    running (sync (snd (let (killed, w3) :=
                          checkKillChan (killArrives env CpCooldown)
                                        (SyncEpochCooldown cfg) w2 in
                        if killed then (LoopBreak false, w3)
                        else runLoop cfg envs w3)))
    = running (sync w)).
  { intros w2 H2. unfold checkKillChan.
    destruct (0 <? SyncEpochCooldown cfg),
             (killChan (sync w2) || killArrives env CpCooldown);
      cbn; try exact H2; rewrite IH; exact H2. }
  destruct done.
  - destruct (toInt64 _ >? getFinalizedHead env); [exact Hstep|].
    apply Hcool. exact Hstep.
  - destruct err; apply Hcool; exact Hstep.
Qed.

(** Whenever the deferred [recover] of [runSync] catches a panic, the run
    mutex is released and the panic is the last line of the trace, but the
    [running] flag is what it was when the worker began. *)
Lemma runSync_recovered cfg envs w msg w' :
  runSync cfg envs w = (WorkerRecovered msg, w') ->
  running (sync w') = running (sync w) /\
  runMutex (sync w') = false /\
  last (trace w') = Some (EvLog (LogPanic msg)).
Proof.
  unfold runSync. intros Hrun.
  match type of Hrun with
  | context [runLoop cfg envs ?w0] =>
      pose proof (runLoop_keeps_running cfg envs w0) as Hkeep;
      destruct (runLoop cfg envs w0) as [[c|m|] w1]
  end; try discriminate.
  injection Hrun as -> <-. cbn in *. split; [exact Hkeep|].
  split; [reflexivity|]. apply last_snoc.
Qed.

(** C3, where the code departs from it: the worker is started at epoch 0 on
    a chain node that answers a body request with nil and no error.  The
    nil pointer dereference in the fetch loop is caught by the deferred
    [recover] and logged, the run mutex is released and nothing is retried,
    but the [running] flag is still set, so [isEpochAhead] goes on
    answering true. *)
Theorem panic_leaves_running_set :
  let r := runSync cfg2 [bodiless] (started 0) in
  (exists msg, fst r = WorkerRecovered msg /\
               last (trace (snd r)) = Some (EvLog (LogPanic msg))) /\
  runMutex (sync (snd r)) = false /\
  currentEpoch (sync (snd r)) = 0 /\
  running (sync (snd r)) = true /\
  isEpochAhead (sync (snd r)) 5 = true.
Proof.
  vm_compute. split; [eexists; split; reflexivity|]. repeat split.
Qed.

(** ** C10: the slot page rejects what is neither a root nor a slot *)

Lemma stripHexPrefix_cons c rest :
  (c <> "0"%char \/ forall rest', rest <> String "x"%char rest') ->
  Handlers.stripHexPrefix (String c rest)
  = String c (Handlers.stripHexPrefix rest).
Proof.
  intros Hnot.
  destruct (ascii_dec c "0"%char) as [->|Hc].
  - destruct Hnot as [Hnot|Hnot]; [congruence|].
    destruct rest as [|c' rest']; [reflexivity|].
    destruct (ascii_dec c' "x"%char) as [->|Hc']; [exfalso; eapply Hnot; reflexivity|].
    destruct c' as [[] [] [] [] [] [] [] []]; try reflexivity. congruence.
  - destruct c as [[] [] [] [] [] [] [] []]; try reflexivity. congruence.
Qed.

Lemma parseDigits_plain s : forall acc n,
  Handlers.parseDigits acc s = Some n -> Handlers.stripHexPrefix s = s.
Proof.
  induction s as [|c rest IH]; intros acc n Hparse; [reflexivity|].
  cbn [Handlers.parseDigits] in Hparse.
  destruct (Handlers.decDigit c) as [d|] eqn:Hd; [|discriminate].
  rewrite stripHexPrefix_cons.
  - f_equal. eapply IH. exact Hparse.
  - right. intros rest' ->. cbn [Handlers.parseDigits] in Hparse.
    vm_compute in Hparse. discriminate.
Qed.

(** A string [ParseInt] accepts holds no ["0x"]. *)
Lemma ParseInt_plain v n :
  Handlers.ParseInt v = Some n -> Handlers.stripHexPrefix v = v.
Proof.
  unfold Handlers.ParseInt.
  assert (Hsigned : forall neg digits m,
            Handlers.parseSigned neg digits = Some m ->
            Handlers.stripHexPrefix digits = digits).
  { intros neg digits m. unfold Handlers.parseSigned.
    destruct digits as [|c rest]; [discriminate|].
    destruct (Handlers.parseDigits 0 (String c rest)) as [un|] eqn:Hun;
      [|discriminate].
    intros _. eapply parseDigits_plain. exact Hun. }
  destruct v as [|c rest]; [discriminate|].
  destruct (ascii_dec c "+"%char) as [->|Hplus].
  { intros H. rewrite stripHexPrefix_cons by (left; discriminate).
    f_equal. eapply Hsigned. exact H. }
  destruct (ascii_dec c "-"%char) as [->|Hminus].
  { intros H. rewrite stripHexPrefix_cons by (left; discriminate).
    f_equal. eapply Hsigned. exact H. }
  intros H. apply (Hsigned false _ n).
  destruct c as [[] [] [] [] [] [] [] []]; try exact H; congruence.
Qed.

(** C10: when the path parameter, once every ["0x"] is taken out, is not a
    block root (it does not decode as hex, or is not 64 characters long),
    and it does not parse as a decimal [int64] or parses to 2147483648 or
    more, the handler answers with the not-found page and has sent no query
    to the beacon service.  The parse may be read on the parameter as
    received, which is what the handler parses, or on the stripped one. *)
Theorem Slot_rejects (svc : Handlers.BeaconService) (v parsed : string) :
  let s := Handlers.stripHexPrefix v in
  Handlers.DecodeString s = None \/ String.length s <> 64%nat ->
  parsed = v \/ parsed = s ->
  Handlers.ParseInt parsed = None \/
    (exists n, Handlers.ParseInt parsed = Some n /\ 2147483648 <= n) ->
  Handlers.Slot svc v
  = {| Handlers.queries := []; Handlers.page := Handlers.NotFoundPage s |}.
Proof.
  intros s Hroot Hwhich Hparse.
  assert (Hraw : Handlers.ParseInt v = None \/
                 exists n, Handlers.ParseInt v = Some n /\ 2147483648 <= n).
  { destruct Hwhich as [->| ->]; [exact Hparse|].
    destruct (Handlers.ParseInt v) as [n|] eqn:Hv; [|left; reflexivity].
    subst s. rewrite (ParseInt_plain v n Hv) in Hparse.
    rewrite Hv in Hparse. exact Hparse. }
  unfold Handlers.Slot. fold s.
  assert (Hnot : match Handlers.DecodeString s with
                 | Some _ => Nat.eqb (String.length s) 64
                 | None => false
                 end = false).
  { destruct Hroot as [->|Hlen]; [reflexivity|].
    destruct (Handlers.DecodeString s); [|reflexivity].
    apply Nat.eqb_neq. exact Hlen. }
  rewrite Hnot. cbv beta iota zeta.
  destruct Hraw as [->|(n & -> & Hn)]; [reflexivity|].
  replace (2147483648 <=? n) with true by (symmetry; apply Z.leb_le; exact Hn).
  reflexivity.
Qed.

(** A word, a slot beyond the limit, and a root that is one character
    short. *)
Lemma Slot_rejects_witness :
  Handlers.Slot blank "latest"
  = {| Handlers.queries := []; Handlers.page := Handlers.NotFoundPage "latest" |} /\
  Handlers.Slot blank "2147483648"
  = {| Handlers.queries := [];
       Handlers.page := Handlers.NotFoundPage "2147483648" |} /\
  Handlers.Slot blank "0xabcdef"
  = {| Handlers.queries := []; Handlers.page := Handlers.NotFoundPage "abcdef" |}.
Proof.
  split; [|split].
  - apply (Slot_rejects blank "latest" "latest").
    + left. vm_compute; reflexivity.
    + left. reflexivity.
    + left. vm_compute; reflexivity.
  - apply (Slot_rejects blank "2147483648" "2147483648").
    + right. vm_compute. discriminate.
    + left. reflexivity.
    + right. exists 2147483648. split; [vm_compute; reflexivity|lia].
  - apply (Slot_rejects blank "0xabcdef" "abcdef").
    + right. vm_compute. discriminate.
    + right. vm_compute; reflexivity.
    + left. vm_compute; reflexivity.
Defined.

(** * Further properties *)

Import Behaviour Examples2.

(** ** The fetch loop, slot by slot *)

(** What a pass of the loop body that goes on to the next slot has done. *)
Lemma fetchSlot_inl env slot w w' :
  fetchSlot env slot w = inl w' ->
  (killChan (sync w') = killChan (sync w) /\
   cachedSlot (sync w') = cachedSlot (sync w) /\
   WriterDb w' = WriterDb w) /\
  cachedBlocks (sync w')
  = (if decide (cachedSlot (sync w) < slot)
     then match fetchedBlock env slot with
          | Some cb => <[slot := cb]> (cachedBlocks (sync w))
          | None => cachedBlocks (sync w)
          end
     else cachedBlocks (sync w)).
Proof.
  unfold fetchSlot, fetchedBlock.
  destruct (Z.leb_spec slot (cachedSlot (sync w))) as [Hle|Hlt].
  { intros H. injection H as <-. rewrite decide_False by lia. auto. }
  rewrite decide_True by exact Hlt.
  destruct (GetBlockHeaderBySlot env slot) as [[hd|] [err|]]; cbn;
    try discriminate.
  - unfold checkKillChan. cbn.
    destruct (killChan (sync w) || killArrives env (CpSlot slot)) eqn:Hkill;
      cbn; [discriminate|].
    destruct (GetBlockBodyByBlockroot env (hdrRoot hd)) as [[body|] [berr|]];
      cbn; try discriminate.
    intros H. injection H as <-. cbn. auto.
  - intros H. injection H as <-. cbn. auto.
Qed.

(** A completed run of the loop over distinct slots: each visited slot
    above the high-water mark holds the block the chain node has for it,
    or what it held before when the node has none; nothing else moved. *)
Lemma foldSlots_fetch_inl env (slots : list Z) : forall w w',
  NoDup slots ->
  foldSlots (fetchSlot env) slots w = inl w' ->
  (killChan (sync w') = killChan (sync w) /\
   cachedSlot (sync w') = cachedSlot (sync w) /\
   WriterDb w' = WriterDb w) /\
  forall k,
    cachedBlocks (sync w') !! k
    = if decide (k ∈ slots /\ cachedSlot (sync w) < k)
      then match fetchedBlock env k with
           | Some cb => Some cb
           | None => cachedBlocks (sync w) !! k
           end
      else cachedBlocks (sync w) !! k.
Proof.
  induction slots as [|x xs IH]; intros w w' Hnd Hfold.
  - injection Hfold as <-. split; [auto|]. intros k.
    rewrite decide_False; [reflexivity|]. intros [Hin _].
    apply elem_of_nil in Hin. exact Hin.
  - cbn [foldSlots] in Hfold.
    destruct (fetchSlot env x w) as [w1|r] eqn:Hstep; [|discriminate].
    apply NoDup_cons in Hnd. destruct Hnd as [Hx Hnd].
    destruct (fetchSlot_inl env x w w1 Hstep) as ((K1 & M1 & D1) & C1).
    destruct (IH w1 w' Hnd Hfold) as ((K2 & M2 & D2) & C2).
    split; [repeat split; congruence|].
    intros k. rewrite C2, M1, C1.
    destruct (decide (k = x)) as [->|Hne].
    + rewrite (decide_False (P := x ∈ xs /\ _)) by tauto.
      destruct (decide (cachedSlot (sync w) < x)) as [Hlt|Hge].
      * rewrite decide_True by (split; [apply list_elem_of_here|exact Hlt]).
        destruct (fetchedBlock env x); [apply lookup_insert_eq|reflexivity].
      * rewrite decide_False by tauto. reflexivity.
    + assert (Hsame : (if decide (cachedSlot (sync w) < x)
                       then match fetchedBlock env x with
                            | Some cb => <[x := cb]> (cachedBlocks (sync w))
                            | None => cachedBlocks (sync w)
                            end
                       else cachedBlocks (sync w)) !! k
                      = cachedBlocks (sync w) !! k).
      { destruct (decide (cachedSlot (sync w) < x)); [|reflexivity].
        destruct (fetchedBlock env x); [|reflexivity].
        apply lookup_insert_ne. congruence. }
      rewrite Hsame.
      destruct (decide (k ∈ xs /\ cachedSlot (sync w) < k)) as [[Hin Hlt]|Hno].
      * rewrite decide_True
          by (split; [apply list_elem_of_further; exact Hin|exact Hlt]).
        reflexivity.
      * rewrite decide_False; [reflexivity|]. intros [Hin Hlt]. apply Hno.
        apply elem_of_cons in Hin. destruct Hin as [Heq|Hin]; [congruence|].
        split; assumption.
Qed.

(** When nobody is parked on the kill channel and the chain node has an
    answer for every slot to fetch, the loop runs to its end. *)
Lemma foldSlots_fetch_succeeds env (slots : list Z) : forall w,
  killChan (sync w) = false ->
  (forall k, k ∈ slots -> killArrives env (CpSlot k) = false) ->
  (forall k, k ∈ slots -> cachedSlot (sync w) < k -> nodeAnswers env k) ->
  exists w', foldSlots (fetchSlot env) slots w = inl w'.
Proof.
  induction slots as [|x xs IH]; intros w Hchan Hquiet Hnode.
  - exists w. reflexivity.
  - cbn [foldSlots].
    assert (Hstep : exists w1, fetchSlot env x w = inl w1).
    { unfold fetchSlot.
      destruct (Z.leb_spec x (cachedSlot (sync w))) as [Hle|Hlt]; [eauto|].
      pose proof (Hnode x (list_elem_of_here x xs) Hlt) as Hx.
      unfold nodeAnswers in Hx.
      destruct (GetBlockHeaderBySlot env x) as [[hd|] [err|]]; cbn;
        try contradiction; [|eauto].
      destruct Hx as (body & Hbody).
      unfold checkKillChan. cbn.
      rewrite Hchan, (Hquiet x (list_elem_of_here x xs)). cbn.
      rewrite Hbody. cbn. eauto. }
    destruct Hstep as (w1 & Hstep). rewrite Hstep.
    destruct (fetchSlot_inl env x w w1 Hstep) as ((K1 & M1 & _) & _).
    apply IH.
    + congruence.
    + intros k Hk. apply Hquiet. apply list_elem_of_further. exact Hk.
    + intros k Hk Hlt. apply Hnode; [apply list_elem_of_further; exact Hk|].
      congruence.
Qed.

Lemma fetchBlocks_fold cfg env e w :
  windowFits cfg e ->
  fetchBlocks cfg env e w
  = Some (foldSlots (fetchSlot env)
            (seqZ (e * SlotsPerEpoch cfg) (SlotsPerEpoch cfg * 2)) w).
Proof.
  intros Hfit. unfold fetchBlocks.
  rewrite firstSlotOf_fits, windowLastSlot_fits by exact Hfit.
  destruct Hfit as (He & Hs & Hb). rewrite forSlots_range by nia.
  do 2 f_equal. f_equal. lia.
Qed.

Lemma inWindow_seqZ cfg e k :
  k ∈ seqZ (e * SlotsPerEpoch cfg) (SlotsPerEpoch cfg * 2) <-> inWindow cfg e k.
Proof. rewrite elem_of_seqZ. unfold inWindow. lia. Qed.

(** ** The fetch loop caches what the chain node has *)

(** Once [loadEpoch] has come through the fetch loop of an epoch whose
    window does not wrap, every slot of the window above the high-water
    mark it started with holds the block built from the node's header and
    body replies for that slot (root and header of the header reply, the
    slot as [Slot]), or what it held before when the node has no header
    for it; every other slot of the cache is as it was. *)
Theorem loadEpoch_caches_node_blocks cfg env e w asg w1 :
  windowFits cfg e ->
  loadEpoch cfg env e w = inl (asg, w1) ->
  forall k,
    cachedBlocks (sync w1) !! k
    = if decide (inWindow cfg e k /\ cachedSlot (sync w) < k)
      then match fetchedBlock env k with
           | Some cb => Some cb
           | None => cachedBlocks (sync w) !! k
           end
      else cachedBlocks (sync w) !! k.
Proof.
  intros Hfit. unfold loadEpoch.
  destruct (IsEpochSynchronized (WriterDb w) e); [discriminate|].
  destruct (GetEpochAssignments env e) as [[asg'|] [err|]];
    cbn -[fetchBlocks]; try discriminate.
  unfold checkKillChan. cbn -[fetchBlocks].
  destruct (killChan (sync w) || killArrives env CpAssignments);
    cbn -[fetchBlocks]; [discriminate|].
  rewrite fetchBlocks_fold by exact Hfit.
  destruct (foldSlots (fetchSlot env) _ _) as [wf|r] eqn:Hfold; [|discriminate].
  intros H. injection H as <- <-. cbn.
  destruct (foldSlots_fetch_inl env _ _ wf (NoDup_seqZ _ _) Hfold) as [_ Hcache].
  cbn in Hcache. intros k. rewrite Hcache.
  destruct (decide (inWindow cfg e k /\ cachedSlot (sync w) < k)) as [[Hin Hlt]|Hno].
  - rewrite decide_True by (split; [apply inWindow_seqZ; exact Hin|exact Hlt]).
    reflexivity.
  - rewrite decide_False; [reflexivity|]. intros [Hin Hlt]. apply Hno.
    split; [apply inWindow_seqZ; exact Hin|exact Hlt].
Qed.

(** Epoch 1 from the cache epoch 0 left (slots 2 and 3 cached, mark 3), on
    a node without a block in slot 4: slot 5 holds the node's block, slot 4
    nothing, slot 3 what it held. *)
Lemma loadEpoch_caches_node_blocks_witness :
  windowFits cfg2 1 /\
  exists asg w1,
    loadEpoch cfg2 (node [4] 9) 1 afterEpoch0 = inl (asg, w1) /\
    cachedBlocks (sync w1) !! 5 = Some (blockAt 5) /\
    cachedBlocks (sync w1) !! 4 = None /\
    cachedBlocks (sync w1) !! 3 = cachedBlocks (sync afterEpoch0) !! 3.
Proof.
  assert (Hfit : windowFits cfg2 1) by (unfold windowFits; simpl; lia).
  split; [exact Hfit|].
  destruct (loadEpoch cfg2 (node [4] 9) 1 afterEpoch0) as [[asg w1]|r] eqn:Hload;
    [|vm_compute in Hload; discriminate].
  exists asg, w1. split; [reflexivity|].
  pose proof (loadEpoch_caches_node_blocks cfg2 (node [4] 9) 1 afterEpoch0
                asg w1 Hfit Hload) as Hcache.
  split; [|split].
  - rewrite Hcache. vm_compute. reflexivity.
  - rewrite Hcache. vm_compute. reflexivity.
  - rewrite Hcache. vm_compute. reflexivity.
Defined.

(** ** A step with nothing in its way goes through *)

Lemma syncEpoch_goes_through cfg env e w asg :
  windowFits cfg e ->
  IsEpochSynchronized (WriterDb w) e = false ->
  GetEpochAssignments env e = (Some asg, None) ->
  (forall k, inWindow cfg e k -> cachedSlot (sync w) < k -> nodeAnswers env k) ->
  is_Some (loadValidatorStats env (DependendStateRef asg)) ->
  killChan (sync w) = false -> quiet env -> faultless env ->
  fst (syncEpoch cfg env e w) = Returned true None.
Proof.
  intros Hfit Hsync Hasg Hnode [vs Hvs] Hchan Hquiet (F1 & F2 & F3 & F4).
  unfold syncEpoch, loadEpoch. rewrite Hsync, Hasg.
  cbn -[fetchBlocks finishEpoch]. unfold checkKillChan.
  cbn -[fetchBlocks finishEpoch].
  rewrite Hchan, (Hquiet CpAssignments). cbn -[fetchBlocks finishEpoch].
  rewrite fetchBlocks_fold by exact Hfit.
  destruct (foldSlots_fetch_succeeds env
              (seqZ (e * SlotsPerEpoch cfg) (SlotsPerEpoch cfg * 2))
              (emit (EvRpc (CallAssignments e) RpcOk) w)) as (wf & Hfold).
  - exact Hchan.
  - intros k _. apply Hquiet.
  - intros k Hk Hlt. apply Hnode; [apply inWindow_seqZ; exact Hk|exact Hlt].
  - rewrite Hfold.
    destruct (foldSlots_fetch_inl env _ _ wf (NoDup_seqZ _ _) Hfold)
      as ((K & _ & _) & _).
    cbn in K. unfold finishEpoch, checkKillChan.
    cbn -[findFirstBlock cleanupCache persistEpoch].
    rewrite K, Hchan, (Hquiet CpFetched), (Hquiet CpStats), Hvs.
    cbn -[findFirstBlock cleanupCache persistEpoch].
    rewrite K, Hchan. cbn -[findFirstBlock cleanupCache persistEpoch].
    rewrite findFirstBlock_fold by exact Hfit.
    unfold persistEpoch, persistEpochData, SetExplorerState.
    rewrite F1, F2, F3, F4. cbn -[cleanupCache].
    destruct (cleanupCache_fits cfg e (cachedBlocks (sync wf)) Hfit)
      as (c & -> & _).
    reflexivity.
Qed.

(** When the epoch is not yet synchronized, its window does not wrap, the
    chain node has the assignments, an answer for every slot of the window
    above the high-water mark and the validator stats, nobody is parked on
    the kill channel and storage does not fail, [syncEpoch] returns done:
    the epoch is synchronized in storage, the cursor is this epoch and the
    high-water mark is the end of the window. *)
Theorem syncEpoch_progress cfg env e w asg :
  windowFits cfg e ->
  IsEpochSynchronized (WriterDb w) e = false ->
  GetEpochAssignments env e = (Some asg, None) ->
  (forall k, inWindow cfg e k -> cachedSlot (sync w) < k -> nodeAnswers env k) ->
  is_Some (loadValidatorStats env (DependendStateRef asg)) ->
  killChan (sync w) = false -> quiet env -> faultless env ->
  let r := syncEpoch cfg env e w in
  fst r = Returned true None /\
  syncstate (WriterDb (snd r)) = Some e /\
  IsEpochSynchronized (WriterDb (snd r)) e = true /\
  cachedSlot (sync (snd r)) = windowLastSlot cfg e.
Proof.
  intros Hfit Hsync Hasg Hnode Hstats Hchan Hquiet Hfault r.
  assert (Hdone : fst r = Returned true None)
    by (apply (syncEpoch_goes_through cfg env e w asg); assumption).
  split; [exact Hdone|].
  destruct (syncEpoch_spec cfg env e _ w (visits_any cfg e))
    as [(Hsync' & _)|(_ & evs & _ & _ & Hcases)]; [congruence|].
  fold r in Hcases.
  destruct Hcases as [(_ & _ & [[_ Hearly]|(_ & _ & err & Herr & _)])
                     |(_ & _ & (rec & Hrec) & Hmark & _)].
  - rewrite Hdone in Hearly. contradiction.
  - congruence.
  - rewrite Hrec. cbn. split; [reflexivity|]. split; [|exact Hmark].
    unfold IsEpochSynchronized. cbn. rewrite lookup_insert_eq.
    apply bool_decide_eq_true. eauto.
Qed.

(** Epoch 1 after epoch 0, on a node that has no block in slot 4. *)
Lemma syncEpoch_progress_witness :
  let r := syncEpoch cfg2 (node [4] 9) 1 afterEpoch0 in
  fst r = Returned true None /\
  syncstate (WriterDb (snd r)) = Some 1 /\
  IsEpochSynchronized (WriterDb (snd r)) 1 = true /\
  cachedSlot (sync (snd r)) = windowLastSlot cfg2 1.
Proof.
  apply (syncEpoch_progress cfg2 (node [4] 9) 1 afterEpoch0 duties).
  - unfold windowFits; simpl; lia.
  - vm_compute; reflexivity.
  - reflexivity.
  - intros k Hk Hlt. unfold inWindow in Hk. cbn in Hk.
    assert (Hmark : cachedSlot (sync afterEpoch0) = 3) by (vm_compute; reflexivity).
    rewrite Hmark in Hlt.
    assert (k = 4 \/ k = 5) as [-> | ->] by lia; vm_compute; eauto.
  - eexists. reflexivity.
  - vm_compute; reflexivity.
  - intros cp. reflexivity.
  - repeat split.
Defined.

(** ** What the result of a step says about storage *)

Lemma syncEpoch_outcome_db cfg env e w :
  let r := syncEpoch cfg env e w in
  (WriterDb (snd r) = WriterDb w /\
   ((forall err, fst r <> Returned true err) \/
    (fst r = Returned true None /\ IsEpochSynchronized (WriterDb w) e = true)))
  \/
  (IsEpochSynchronized (WriterDb (snd r)) e = true /\
   (fst r = Returned true None \/ fst r = Hangs)).
Proof.
  intros r.
  destruct (syncEpoch_spec cfg env e _ w (visits_any cfg e))
    as [(Hsync & Hr)|(_ & evs & _ & _ & Hcases)]; fold r in Hr || idtac.
  - rewrite Hr. cbn. left. split; [reflexivity|]. right. split; [reflexivity|exact Hsync].
  - fold r in Hcases.
    destruct Hcases as [(Hdb & _ & Hexit)
                       |(_ & _ & (rec & Hrec) & _ & asg & w1 & _ & _ & Hclean)].
    + left. split; [exact Hdb|]. left. intros err Hdone.
      destruct Hexit as [[_ Hearly]|(_ & _ & err' & Herr & _)];
        [rewrite Hdone in Hearly; exact Hearly|congruence].
    + right. split.
      * rewrite Hrec. unfold IsEpochSynchronized. cbn. rewrite lookup_insert_eq.
        apply bool_decide_eq_true. eauto.
      * destruct (cleanupCache cfg e (cachedBlocks (sync w1))) as [c|];
          destruct Hclean as [Hres _]; [left|right]; exact Hres.
Qed.

Lemma syncEpoch_not_done_db cfg env e w :
  (forall err, fst (syncEpoch cfg env e w) <> Returned true err) ->
  fst (syncEpoch cfg env e w) <> Hangs ->
  WriterDb (snd (syncEpoch cfg env e w)) = WriterDb w.
Proof.
  intros Hnot Hruns.
  destruct (syncEpoch_outcome_db cfg env e w) as [[Hdb _]|[_ [Hres|Hres]]];
    [exact Hdb| |]; cbv zeta in Hres.
  - destruct (Hnot None Hres).
  - destruct (Hruns Hres).
Qed.

Lemma syncEpoch_done_synced cfg env e w err :
  fst (syncEpoch cfg env e w) = Returned true err ->
  err = None /\ IsEpochSynchronized (WriterDb (snd (syncEpoch cfg env e w))) e = true.
Proof.
  intros Hdone.
  destruct (syncEpoch_outcome_db cfg env e w)
    as [[Hdb [Hnot|[Hres Hsync]]]|[Hsync [Hres|Hres]]]; cbv zeta in *.
  - destruct (Hnot err Hdone).
  - split; [congruence|]. rewrite Hdb. exact Hsync.
  - split; [congruence|exact Hsync].
  - congruence.
Qed.

(** The result of [syncEpoch] tells where storage stands: a call that
    returns not-done, or panics, has left the store as it was; a call that
    returns done returns no error and the epoch is synchronized in
    storage, so the next call for it is a skip. *)
Theorem syncEpoch_result_tells_storage cfg env e w :
  let r := syncEpoch cfg env e w in
  (forall err, fst r = Returned false err -> WriterDb (snd r) = WriterDb w) /\
  (forall msg, fst r = Panics msg -> WriterDb (snd r) = WriterDb w) /\
  (forall err, fst r = Returned true err ->
     err = None /\ IsEpochSynchronized (WriterDb (snd r)) e = true).
Proof.
  intros r. subst r. split; [|split].
  - intros err Hres. apply syncEpoch_not_done_db; rewrite Hres;
      [intros err'|]; discriminate.
  - intros msg Hres. apply syncEpoch_not_done_db; rewrite Hres;
      [intros err'|]; discriminate.
  - intros err Hres. apply syncEpoch_done_synced. exact Hres.
Qed.

(** A header that cannot be fetched leaves the store empty; epoch 0 gone
    through leaves it synchronized. *)
Lemma syncEpoch_result_tells_storage_witness :
  (fst (syncEpoch cfg2 flaky 0 fresh)
   = Returned false (Some (ErrSlotHeader 2 "timeout")) /\
   WriterDb (snd (syncEpoch cfg2 flaky 0 fresh)) = WriterDb fresh) /\
  (fst (syncEpoch cfg2 (node [] 0) 0 fresh) = Returned true None /\
   IsEpochSynchronized (WriterDb (snd (syncEpoch cfg2 (node [] 0) 0 fresh))) 0
   = true).
Proof.
  assert (H1 : fst (syncEpoch cfg2 flaky 0 fresh)
               = Returned false (Some (ErrSlotHeader 2 "timeout")))
    by (vm_compute; reflexivity).
  assert (H2 : fst (syncEpoch cfg2 (node [] 0) 0 fresh) = Returned true None)
    by (vm_compute; reflexivity).
  split; (split; [assumption|]).
  - exact (proj1 (syncEpoch_result_tells_storage cfg2 flaky 0 fresh) _ H1).
  - exact (proj2 (proj2 (proj2 (syncEpoch_result_tells_storage
                                  cfg2 (node [] 0) 0 fresh)) _ H2)).
Defined.

(** ** The stored cursor is the last epoch persisted *)

(** A step that goes through the full cycle leaves the stored cursor at its
    own epoch, whatever the cursor was before (a worker started at an
    earlier epoch moves it back), adds the record of its epoch and leaves
    the records of all other epochs alone. *)
Theorem cursor_is_last_persisted cfg env e w :
  persisted cfg env e w ->
  let w' := snd (syncEpoch cfg env e w) in
  syncstate (WriterDb w') = Some e /\
  is_Some (epochs (WriterDb w') !! e) /\
  forall e', e' <> e -> epochs (WriterDb w') !! e' = epochs (WriterDb w) !! e'.
Proof.
  intros [Hsync Hdone] w'.
  destruct (syncEpoch_spec cfg env e _ w (visits_any cfg e))
    as [(Hsync' & _)|(_ & evs & _ & _ & Hcases)]; [congruence|].
  fold w' in Hcases.
  destruct Hcases as [(_ & _ & [[_ Hearly]|(_ & _ & err & Herr & _)])
                     |(_ & _ & (rec & Hrec) & _)].
  - rewrite Hdone in Hearly. contradiction.
  - congruence.
  - rewrite Hrec. cbn. split; [reflexivity|]. split.
    + rewrite lookup_insert_eq. eauto.
    + intros e' Hne. apply lookup_insert_ne. congruence.
Qed.

(** The store holds epoch 2 and the cursor 2; a worker started anew at
    epoch 0 persists it and the cursor goes back to 0, epoch 2 still
    there. *)
Lemma cursor_is_last_persisted_witness :
  persisted cfg2 (node [] 9) 0 restarted /\
  syncstate (WriterDb restarted) = Some 2 /\
  let w' := snd (syncEpoch cfg2 (node [] 9) 0 restarted) in
  syncstate (WriterDb w') = Some 0 /\
  is_Some (epochs (WriterDb w') !! 0) /\
  epochs (WriterDb w') !! 2 = epochs (WriterDb restarted) !! 2.
Proof.
  assert (Hp : persisted cfg2 (node [] 9) 0 restarted)
    by (split; vm_compute; reflexivity).
  split; [exact Hp|]. split; [vm_compute; reflexivity|].
  destruct (cursor_is_last_persisted cfg2 (node [] 9) 0 restarted Hp)
    as (Hcur & Hrec & Hother).
  split; [exact Hcur|]. split; [exact Hrec|]. apply Hother. discriminate.
Defined.

(** ** Retry after a storage fault *)

Lemma finishEpoch_storage_error_chan cfg env e asg w1 err :
  fst (finishEpoch cfg env e asg w1) = Returned false (Some err) ->
  isStorageError err = true ->
  killChan (sync (snd (finishEpoch cfg env e asg w1))) = false.
Proof.
  unfold finishEpoch, checkKillChan.
  cbn -[findFirstBlock cleanupCache persistEpoch].
  destruct (killChan (sync w1) || killArrives env CpFetched) eqn:Hk1;
    cbn -[findFirstBlock cleanupCache persistEpoch]; [discriminate|].
  destruct (loadValidatorStats env (DependendStateRef asg)) as [vstats|];
    cbn -[findFirstBlock cleanupCache persistEpoch].
  2: { intros H. injection H as <-. discriminate. }
  destruct (killChan (sync w1) || killArrives env CpStats);
    cbn -[findFirstBlock cleanupCache persistEpoch]; [discriminate|].
  destruct (findFirstBlock cfg e (cachedBlocks (sync w1))) as [firstBlock|];
    cbn -[cleanupCache persistEpoch]; [|discriminate].
  match goal with
  | |- context [persistEpoch ?env ?e ?b ?s ?v ?w] =>
      pose proof (persistEpoch_spec env e b s v w) as Hp;
      destruct (persistEpoch env e b s v w) as [[perr|] w2]
  end; cbn -[cleanupCache] in *; destruct Hp as (Hsync & _).
  - intros _ _. rewrite Hsync. cbn. apply orb_false_elim in Hk1. tauto.
  - destruct (cleanupCache cfg e (cachedBlocks (sync w2))); discriminate.
Qed.

(** Where a step that failed on storage has left the worker. *)
Lemma syncEpoch_storage_error_state cfg env e w err :
  fst (syncEpoch cfg env e w) = Returned false (Some err) ->
  isStorageError err = true ->
  IsEpochSynchronized (WriterDb w) e = false /\
  WriterDb (snd (syncEpoch cfg env e w)) = WriterDb w /\
  cachedSlot (sync (snd (syncEpoch cfg env e w))) = windowLastSlot cfg e /\
  killChan (sync (snd (syncEpoch cfg env e w))) = false.
Proof.
  intros Hres Herr.
  assert (Hdb : WriterDb (snd (syncEpoch cfg env e w)) = WriterDb w)
    by (apply syncEpoch_not_done_db; rewrite Hres; [intros err'|]; discriminate).
  revert Hres Hdb. unfold syncEpoch.
  pose proof (loadEpoch_spec cfg env e _ w (visits_any cfg e)) as Hload.
  destruct (loadEpoch cfg env e w) as [[asg w1]|[o w1]].
  - destruct Hload as (Hsync & Hmark & _). intros Hres Hdb.
    destruct (finishEpoch_spec cfg env e asg w1)
      as (evs & _ & _ & _ & (_ & _ & _ & Hslot) & _).
    split; [exact Hsync|]. split; [exact Hdb|]. split; [congruence|].
    eapply finishEpoch_storage_error_chan; eassumption.
  - cbn. intros -> _. exfalso.
    destruct Hload as [(_ & Ho & _)|(_ & evs & _ & Hearly)]; [discriminate|].
    cbn in Hearly. congruence.
Qed.

(** After a step that failed on one of the storage operations, the fetch is
    not lost: a second call for the same epoch with storage back in order
    (and the assignments and validator stats still to be had, nobody parked
    on the kill channel) asks the chain node for no header at all and
    returns done, the epoch synchronized in storage. *)
Theorem syncEpoch_retry_after_storage_fault cfg env1 env2 e w err asg :
  windowFits cfg e ->
  fst (syncEpoch cfg env1 e w) = Returned false (Some err) ->
  isStorageError err = true ->
  GetEpochAssignments env2 e = (Some asg, None) ->
  is_Some (loadValidatorStats env2 (DependendStateRef asg)) ->
  quiet env2 -> faultless env2 ->
  let w1 := snd (syncEpoch cfg env1 e w) in
  let r := syncEpoch cfg env2 e w1 in
  fst r = Returned true None /\
  IsEpochSynchronized (WriterDb (snd r)) e = true /\
  headerRequests (newEvents w1 (snd r)) = [].
Proof.
  intros Hfit Hres Herr Hasg Hstats Hquiet Hfault w1 r.
  destruct (syncEpoch_storage_error_state cfg env1 e w err Hres Herr)
    as (Hsync & Hdb & Hmark & Hchan).
  fold w1 in Hdb, Hmark, Hchan.
  assert (Hnone : forall k, inWindow cfg e k -> cachedSlot (sync w1) < k -> False).
  { intros k Hk Hlt. rewrite Hmark, windowLastSlot_fits in Hlt by exact Hfit.
    unfold inWindow in Hk. lia. }
  assert (Hdone : fst r = Returned true None).
  { apply (syncEpoch_goes_through cfg env2 e w1 asg); try assumption.
    - rewrite Hdb. exact Hsync.
    - intros k Hk Hlt. destruct (Hnone k Hk Hlt). }
  split; [exact Hdone|].
  split; [exact (proj2 (syncEpoch_done_synced cfg env2 e w1 _ Hdone))|].
  - destruct (syncEpoch_spec cfg env2 e _ w1 (visits_window cfg e Hfit))
      as [(_ & Hr)|(_ & evs & Htrace & Hhdr & _)]; fold r in Hr || idtac.
    + rewrite Hr. cbn. rewrite newEvents_same. reflexivity.
    + fold r in Htrace. rewrite (newEvents_app _ _ _ Htrace).
      destruct (headerRequests evs) as [|k ks]; [reflexivity|].
      apply Forall_cons in Hhdr. destruct Hhdr as [[Hk Hlt] _].
      destruct (Hnone k Hk Hlt).
Qed.

(** Epoch 0 on a store that refuses the commit, then again on a store that
    takes it. *)
Lemma syncEpoch_retry_after_storage_fault_witness :
  fst (syncEpoch cfg2 (withCommitFault "disk full" (node [] 0)) 0 fresh)
  = Returned false (Some (ErrCommit "disk full")) /\
  let r := syncEpoch cfg2 (node [] 0) 0 afterFault in
  fst r = Returned true None /\
  IsEpochSynchronized (WriterDb (snd r)) 0 = true /\
  headerRequests (newEvents afterFault (snd r)) = [].
Proof.
  assert (Hres : fst (syncEpoch cfg2 (withCommitFault "disk full" (node [] 0))
                                0 fresh)
                 = Returned false (Some (ErrCommit "disk full")))
    by (vm_compute; reflexivity).
  split; [exact Hres|].
  apply (syncEpoch_retry_after_storage_fault cfg2
           (withCommitFault "disk full" (node [] 0)) (node [] 0) 0 fresh
           (ErrCommit "disk full") duties).
  - unfold windowFits; simpl; lia.
  - exact Hres.
  - reflexivity.
  - reflexivity.
  - eexists. reflexivity.
  - intros cp. reflexivity.
  - repeat split.
Defined.

(** ** The lookahead is fetched once *)

(** After a step that went through the full cycle for epoch [e], the step
    for epoch [e + 1] asks the chain node for headers of the slots of epoch
    [e + 2] only: the slots of [e + 1], fetched as lookahead, are not asked
    for again. *)
Theorem lookahead_not_refetched cfg env env' e w :
  windowFits cfg e -> windowFits cfg (e + 1) ->
  persisted cfg env e w ->
  let w' := snd (syncEpoch cfg env e w) in
  Forall (inEpoch cfg (e + 2))
         (headerRequests (newEvents w' (snd (syncEpoch cfg env' (e + 1) w')))).
Proof.
  intros Hfit Hfit' [Hsync Hdone] w'.
  assert (Hmark : cachedSlot (sync w') = windowLastSlot cfg e).
  { destruct (syncEpoch_spec cfg env e _ w (visits_any cfg e))
      as [(Hsync' & _)|(_ & evs & _ & _ & Hcases)]; [congruence|].
    fold w' in Hcases.
    destruct Hcases as [(_ & _ & [[_ Hearly]|(_ & _ & err & Herr & _)])
                       |(_ & _ & _ & Hmark & _)];
      [rewrite Hdone in Hearly; contradiction|congruence|exact Hmark]. }
  rewrite windowLastSlot_fits in Hmark by exact Hfit.
  destruct (syncEpoch_spec cfg env' (e + 1) _ w' (visits_window cfg (e + 1) Hfit'))
    as [(_ & ->)|(_ & evs & Htrace & Hhdr & _)].
  - cbn. rewrite newEvents_same. constructor.
  - rewrite (newEvents_app _ _ _ Htrace).
    eapply Forall_impl; [exact Hhdr|]. cbn. intros k [Hwin Hlt].
    unfold inWindow in Hwin. unfold inEpoch. lia.
Qed.

(** Epoch 0, then epoch 1: the second step asks for slots 4 and 5. *)
Lemma lookahead_not_refetched_witness :
  persisted cfg2 (node [] 9) 0 fresh /\
  headerRequests (newEvents afterEpoch0
                    (snd (syncEpoch cfg2 (node [] 9) 1 afterEpoch0))) = [4; 5] /\
  Forall (inEpoch cfg2 2)
         (headerRequests (newEvents afterEpoch0
                            (snd (syncEpoch cfg2 (node [] 9) 1 afterEpoch0)))).
Proof.
  assert (Hp : persisted cfg2 (node [] 9) 0 fresh)
    by (split; vm_compute; reflexivity).
  split; [exact Hp|]. split; [vm_compute; reflexivity|].
  apply (lookahead_not_refetched cfg2 (node [] 9) (node [] 9) 0 fresh).
  - unfold windowFits; simpl; lia.
  - unfold windowFits; simpl; lia.
  - exact Hp.
Defined.

(** ** One transaction per step, always closed *)

Lemma txEvents_app evs1 evs2 :
  txEvents (evs1 ++ evs2) = txEvents evs1 ++ txEvents evs2.
Proof. unfold txEvents. apply List.filter_app. Qed.

Lemma txEvents_none evs :
  Forall (fun ev => isTx ev = false) evs -> txEvents evs = [].
Proof.
  induction 1 as [|ev evs Hev _ IH]; [reflexivity|].
  unfold txEvents in *. cbn. rewrite Hev. exact IH.
Qed.

Lemma persistEpoch_protocol env e blocks stats votes w :
  exists evs,
    trace (snd (persistEpoch env e blocks stats votes w)) = trace w ++ evs /\
    txEvents evs ∈ txProtocol e.
Proof.
  unfold persistEpoch, persistEpochData, SetExplorerState.
  destruct (BeginxFault env) as [e1|];
    [|destruct (persistFault env) as [e2|];
      [|destruct (setStateFault env) as [e3|];
        [|destruct (CommitFault env) as [e4|]]]];
    cbn; eexists; (split; [rewrite <- ?app_assoc; reflexivity|]);
    apply list_elem_of_In; cbn; tauto.
Qed.

Lemma finishEpoch_protocol cfg env e asg w1 :
  exists evs,
    trace (snd (finishEpoch cfg env e asg w1)) = trace w1 ++ evs /\
    txEvents evs ∈ txProtocol e.
Proof.
  assert (Hnil : ([] : list Event) ∈ txProtocol e) by apply list_elem_of_here.
  unfold finishEpoch, checkKillChan.
  cbn -[findFirstBlock cleanupCache persistEpoch].
  destruct (killChan (sync w1) || killArrives env CpFetched);
    cbn -[findFirstBlock cleanupCache persistEpoch].
  { exists []. rewrite app_nil_r. split; [reflexivity|exact Hnil]. }
  destruct (loadValidatorStats env (DependendStateRef asg)) as [vstats|];
    cbn -[findFirstBlock cleanupCache persistEpoch].
  2: { eexists [_]. split; [reflexivity|exact Hnil]. }
  destruct (killChan (sync w1) || killArrives env CpStats);
    cbn -[findFirstBlock cleanupCache persistEpoch].
  { eexists [_]. split; [reflexivity|exact Hnil]. }
  destruct (findFirstBlock cfg e (cachedBlocks (sync w1))) as [firstBlock|];
    cbn -[cleanupCache persistEpoch].
  2: { eexists [_]. split; [reflexivity|exact Hnil]. }
  match goal with
  | |- context [persistEpoch ?env ?e ?b ?s ?v ?w] =>
      destruct (persistEpoch_protocol env e b s v w) as (evs & Htrace & Hin);
      destruct (persistEpoch env e b s v w) as [[err|] w2]
  end; cbn -[cleanupCache] in *.
  - exists (EvRpc (CallValidatorStats (DependendStateRef asg)) RpcOk :: evs).
    split; [rewrite Htrace, <- app_assoc; reflexivity|exact Hin].
  - exists (EvRpc (CallValidatorStats (DependendStateRef asg)) RpcOk :: evs).
    destruct (cleanupCache cfg e (cachedBlocks (sync w2))); cbn;
      (split; [rewrite Htrace, <- app_assoc; reflexivity|exact Hin]).
Qed.

(** The storage operations of a call of [syncEpoch], read off the trace in
    order, are none at all, a [Beginx] that failed, or one transaction:
    opened, the epoch data persisted, the cursor written, committed, each
    only after the one before went well, and ended by the deferred
    [Rollback] on every path.  A step never opens a second transaction and
    never leaves one open. *)
Theorem syncEpoch_tx_protocol cfg env e w :
  txEvents (newEvents w (snd (syncEpoch cfg env e w))) ∈ txProtocol e.
Proof.
  assert (Hnil : ([] : list Event) ∈ txProtocol e) by apply list_elem_of_here.
  unfold syncEpoch.
  pose proof (loadEpoch_spec cfg env e _ w (visits_any cfg e)) as Hload.
  destruct (loadEpoch cfg env e w) as [[asg w1]|[o w1]].
  - destruct Hload as (_ & _ & evs1 & Hadv & _).
    destruct (finishEpoch_protocol cfg env e asg w1) as (evs2 & Htrace & Hin).
    rewrite (newEvents_app w _ (evs1 ++ evs2)).
    + rewrite txEvents_app, (txEvents_none _ (adv_notx _ _ _ _ _ Hadv)).
      exact Hin.
    + rewrite Htrace, (adv_trace _ _ _ _ _ Hadv). symmetry. apply app_assoc.
  - cbn. destruct Hload as [(_ & _ & ->)|(_ & evs & Hadv & _)].
    + rewrite newEvents_same. exact Hnil.
    + rewrite (newEvents_app _ _ _ (adv_trace _ _ _ _ _ Hadv)).
      rewrite (txEvents_none _ (adv_notx _ _ _ _ _ Hadv)). exact Hnil.
Qed.

(** ** The worker loop, iteration by iteration *)

Lemma runLoop_step cfg env envs w :
  runLoop cfg (env :: envs) w
  = match loopStep cfg env w with
    | (Some ex, w') => (ex, w')
    | (None, w') => runLoop cfg envs w'
    end.
Proof.
  cbn [runLoop]. unfold loopStep.
  destruct (syncEpoch cfg env _ _) as [[done err| |] w1]; try reflexivity.
  unfold checkKillChan.
  destruct done; [destruct (toInt64 _ >? _); [reflexivity|]|destruct err];
    destruct (0 <? SyncEpochCooldown cfg);
    match goal with
    | |- context [killChan ?s || ?a] => destruct (killChan s || a)
    end; reflexivity.
Qed.

Lemma runLoop_invariant cfg (P : World -> Prop) :
  (forall env w, P w -> P (snd (loopStep cfg env w))) ->
  forall envs w, P w -> P (snd (runLoop cfg envs w)).
Proof.
  intros Hstep. induction envs as [|env envs IH]; intros w Hw; [exact Hw|].
  rewrite runLoop_step. specialize (Hstep env w Hw).
  destruct (loopStep cfg env w) as [[ex|] w']; cbn in *;
    [exact Hstep|apply IH; exact Hstep].
Qed.

(** What an iteration adds to the call of [syncEpoch] it makes: a new
    current epoch after a done step, log lines and the sleep, the receive
    on the kill channel. *)
Lemma loopStep_frame cfg env w :
  let e := currentEpoch (sync w) in
  let r := syncEpoch cfg env e (emit (EvLog (LogSynchronizing e)) w) in
  let w' := snd (loopStep cfg env w) in
  (exists evs, trace w' = trace (snd r) ++ evs /\ headerRequests evs = []) /\
  WriterDb w' = WriterDb (snd r) /\
  cachedSlot (sync w') = cachedSlot (sync (snd r)) /\
  cachedBlocks (sync w') = cachedBlocks (sync (snd r)) /\
  currentEpoch (sync w')
  = match fst r with
    | Returned true _ => u64 (e + 1)
    | _ => currentEpoch (sync (snd r))
    end.
Proof.
  intros e r w'. subst w'. unfold loopStep. fold e. fold r.
  destruct r as [[done err| |] w1]; cbn [fst snd].
  2, 3: (split; [exists []; rewrite app_nil_r; split; reflexivity|]);
        repeat split.
  unfold checkKillChan.
  destruct done; [destruct (toInt64 _ >? _)|destruct err];
    try destruct (0 <? SyncEpochCooldown cfg);
    try match goal with
        | |- context [killChan ?s || ?a] => destruct (killChan s || a)
        end; cbn;
    (split; [eexists; split;
             [first [ symmetry; apply app_nil_r
                    | rewrite <- ?app_assoc; reflexivity ]
             | reflexivity ]|]);
    repeat split.
Qed.

Lemma syncEpoch_keeps_epoch cfg env e w :
  currentEpoch (sync (snd (syncEpoch cfg env e w))) = currentEpoch (sync w).
Proof.
  unfold syncEpoch.
  pose proof (loadEpoch_spec cfg env e _ w (visits_any cfg e)) as Hload.
  destruct (loadEpoch cfg env e w) as [[asg w1]|[o w1]].
  - destruct Hload as (_ & _ & evs & Hadv & _).
    destruct (finishEpoch_spec cfg env e asg w1)
      as (evs2 & _ & _ & _ & (_ & Hep & _) & _).
    rewrite Hep. apply (adv_epoch _ _ _ _ _ Hadv).
  - destruct Hload as [(_ & _ & ->)|(_ & evs & Hadv & _)]; [reflexivity|].
    apply (adv_epoch _ _ _ _ _ Hadv).
Qed.

(** ** The worker's cursor never runs ahead of storage *)

Lemma syncEpoch_store_grows cfg env e w e' :
  IsEpochSynchronized (WriterDb w) e' = true ->
  IsEpochSynchronized (WriterDb (snd (syncEpoch cfg env e w))) e' = true.
Proof.
  intros Hsynced.
  destruct (syncEpoch_spec cfg env e _ w (visits_any cfg e))
    as [(_ & ->)|(_ & evs & _ & _ & Hcases)]; [exact Hsynced|].
  destruct Hcases as [(-> & _)|(_ & _ & (rec & ->) & _)]; [exact Hsynced|].
  unfold IsEpochSynchronized in *. cbn.
  destruct (decide (e = e')) as [->|Hne].
  - rewrite lookup_insert_eq. apply bool_decide_eq_true. eauto.
  - rewrite lookup_insert_ne by exact Hne. exact Hsynced.
Qed.

Lemma loopStep_cursor cfg env a w :
  0 <= a ->
  (0 <= currentEpoch (sync w) < 2 ^ 64 /\
   forall e, a <= e < currentEpoch (sync w) ->
             IsEpochSynchronized (WriterDb w) e = true) ->
  let w' := snd (loopStep cfg env w) in
  0 <= currentEpoch (sync w') < 2 ^ 64 /\
  forall e, a <= e < currentEpoch (sync w') ->
            IsEpochSynchronized (WriterDb w') e = true.
Proof.
  intros Ha [Hrange Hinv] w'.
  destruct (loopStep_frame cfg env w) as (_ & Hdb & _ & _ & Hcur).
  fold w' in Hdb, Hcur.
  set (e0 := currentEpoch (sync w)) in *.
  set (w0 := emit (EvLog (LogSynchronizing e0)) w) in *.
  pose proof (syncEpoch_keeps_epoch cfg env e0 w0) as Hkeep.
  pose proof (syncEpoch_done_synced cfg env e0 w0) as Hdone.
  assert (Hold : forall e, a <= e < e0 ->
                           IsEpochSynchronized (WriterDb w') e = true).
  { intros e He. rewrite Hdb. apply syncEpoch_store_grows. apply Hinv. exact He. }
  rewrite Hdb.
  destruct (fst (syncEpoch cfg env e0 w0)) as [[|] err| |] eqn:Hres;
    rewrite Hcur, ?Hkeep; cbn [currentEpoch sync emit w0]; rewrite <- ?Hdb;
    try (split; [exact Hrange|exact Hold]).
  destruct (Hdone err eq_refl) as [_ Hsynced].
  split; [unfold u64; apply Z.mod_pos_bound; lia|].
  intros e He.
  destruct (decide (e0 + 1 < 2 ^ 64)) as [Hsmall|Hwrap].
  - rewrite u64_small in He by lia.
    destruct (decide (e = e0)) as [->|Hne]; [rewrite Hdb; exact Hsynced|].
    apply Hold. lia.
  - assert (Hzero : u64 (e0 + 1) = 0).
    { assert (e0 + 1 = 2 ^ 64) as -> by lia. reflexivity. }
    rewrite Hzero in He. lia.
Qed.

(** Whatever a worker run meets, when it stops (or the schedule ends) every
    epoch from the one it started at up to, but not including, the one its
    cursor stands at is synchronized in storage: the cursor only moves past
    an epoch that storage holds. *)
Theorem worker_cursor_behind_storage cfg envs w :
  0 <= currentEpoch (sync w) < 2 ^ 64 ->
  let w' := snd (runSync cfg envs w) in
  forall e, currentEpoch (sync w) <= e < currentEpoch (sync w') ->
            IsEpochSynchronized (WriterDb w') e = true.
Proof.
  intros Hrange w'.
  set (a := currentEpoch (sync w)).
  set (P := fun w1 : World =>
              0 <= currentEpoch (sync w1) < 2 ^ 64 /\
              forall e, a <= e < currentEpoch (sync w1) ->
                        IsEpochSynchronized (WriterDb w1) e = true).
  assert (Hloop : forall w0, P w0 -> P (snd (runLoop cfg envs w0))).
  { intros w0. apply (runLoop_invariant cfg P).
    intros env w1 Hw1. apply (loopStep_cursor cfg env a w1); [lia|exact Hw1]. }
  subst w'. unfold runSync.
  match goal with
  | |- context [runLoop cfg envs ?w1] => set (w0 := w1)
  end.
  assert (H0 : P w0).
  { split; [exact Hrange|]. intros e He. unfold w0 in He. cbn in He.
    unfold a in He. lia. }
  destruct (Hloop w0 H0) as [_ Hinv].
  destruct (runLoop cfg envs w0) as [[c|m|] w1]; cbn in *; exact Hinv.
Qed.

(** A worker started at epoch 0 whose first attempt fails on the commit:
    it ends with the cursor at 1 and epoch 0 in storage. *)
Lemma worker_cursor_behind_storage_witness :
  let w' := snd (runSync cfg2 [withCommitFault "disk full" (node [] 0);
                               node [] 0] (started 0)) in
  currentEpoch (sync (started 0)) = 0 /\ currentEpoch (sync w') = 1 /\
  IsEpochSynchronized (WriterDb w') 0 = true.
Proof.
  intros w'. split; [reflexivity|].
  assert (Hcur : currentEpoch (sync w') = 1) by (vm_compute; reflexivity).
  split; [exact Hcur|].
  apply (worker_cursor_behind_storage cfg2
           [withCommitFault "disk full" (node [] 0); node [] 0] (started 0)).
  - cbn. lia.
  - fold w'. rewrite Hcur. cbn. lia.
Defined.

(** ** Cache entries are filed under their own slot *)

Lemma keyed_insert (cache : gmap Z CacheBlock) slot cb :
  Slot cb = slot -> keyed cache -> keyed (<[slot := cb]> cache).
Proof.
  intros Hslot Hkeyed k cb' Hk. destruct (decide (slot = k)) as [<-|Hne].
  - rewrite lookup_insert_eq in Hk. congruence.
  - rewrite lookup_insert_ne in Hk by exact Hne. eapply Hkeyed. exact Hk.
Qed.

Lemma fetchSlot_keyed env slot w :
  keyed (cachedBlocks (sync w)) ->
  match fetchSlot env slot w with
  | inl w' => keyed (cachedBlocks (sync w'))
  | inr r => keyed (cachedBlocks (sync (snd r)))
  end.
Proof.
  intros Hkeyed. unfold fetchSlot.
  destruct (slot <=? cachedSlot (sync w)); [exact Hkeyed|].
  destruct (GetBlockHeaderBySlot env slot) as [[hd|] [err|]]; cbn;
    try exact Hkeyed.
  unfold checkKillChan. cbn.
  destruct (killChan (sync w) || killArrives env (CpSlot slot)); cbn;
    [exact Hkeyed|].
  destruct (GetBlockBodyByBlockroot env (hdrRoot hd)) as [[body|] [berr|]]; cbn;
    try exact Hkeyed.
  apply keyed_insert; [reflexivity|exact Hkeyed].
Qed.

Lemma loadEpoch_keyed cfg env e w :
  keyed (cachedBlocks (sync w)) ->
  match loadEpoch cfg env e w with
  | inl (_, w1) => keyed (cachedBlocks (sync w1))
  | inr (_, w1) => keyed (cachedBlocks (sync w1))
  end.
Proof.
  intros Hkeyed. unfold loadEpoch.
  destruct (IsEpochSynchronized (WriterDb w) e); [exact Hkeyed|].
  destruct (GetEpochAssignments env e) as [[asg|] [err|]];
    cbn -[fetchBlocks]; try exact Hkeyed.
  unfold checkKillChan. cbn -[fetchBlocks].
  destruct (killChan (sync w) || killArrives env CpAssignments);
    cbn -[fetchBlocks]; [exact Hkeyed|].
  unfold fetchBlocks.
  pose proof (forSlots_invariant (fetchSlot env)
    (fun w1 => keyed (cachedBlocks (sync w1)))
    (fun r => keyed (cachedBlocks (sync (snd r))))
    (fun slot w1 Hw1 => fetchSlot_keyed env slot w1 Hw1)
    (slotBudget (firstSlotOf cfg e) (windowLastSlot cfg e))
    (firstSlotOf cfg e) (windowLastSlot cfg e)
    (emit (EvRpc (CallAssignments e) RpcOk) w) Hkeyed) as Hloop.
  destruct (forSlots (fetchSlot env) _ _ _ _) as [[wf|[o wf]]|];
    cbn in *; assumption.
Qed.

Lemma syncEpoch_keyed cfg env e w :
  keyed (cachedBlocks (sync w)) ->
  keyed (cachedBlocks (sync (snd (syncEpoch cfg env e w)))).
Proof.
  intros Hkeyed. unfold syncEpoch.
  pose proof (loadEpoch_keyed cfg env e w Hkeyed) as Hload.
  destruct (loadEpoch cfg env e w) as [[asg w1]|[o w1]]; [|exact Hload].
  destruct (finishEpoch_spec cfg env e asg w1)
    as (evs & _ & _ & _ & _ & [(_ & -> & _)|(_ & _ & Hclean)]);
    [exact Hload|].
  destruct (cleanupCache cfg e (cachedBlocks (sync w1))) as [c|] eqn:Hc;
    destruct Hclean as [_ ->]; [|exact Hload].
  intros k cb Hk.
  destruct (cleanupCache_shrinks cfg e _ _ Hc k) as [Hnone|Hsame];
    [congruence|]. apply Hload. congruence.
Qed.

(** Whatever a worker run meets, every entry it leaves in the block cache
    carries in its [Slot] field the slot it is filed under. *)
Theorem worker_cache_keyed cfg envs w :
  keyed (cachedBlocks (sync (snd (runSync cfg envs w)))).
Proof.
  assert (Hloop : forall w0, keyed (cachedBlocks (sync w0)) ->
                             keyed (cachedBlocks (sync (snd (runLoop cfg envs w0))))).
  { apply (runLoop_invariant cfg (fun w0 => keyed (cachedBlocks (sync w0)))).
    intros env w0 Hw0.
    destruct (loopStep_frame cfg env w0) as (_ & _ & _ & -> & _).
    apply syncEpoch_keyed. exact Hw0. }
  unfold runSync.
  match goal with
  | |- context [runLoop cfg envs ?w1] => set (w0 := w1)
  end.
  assert (H0 : keyed (cachedBlocks (sync w0))).
  { intros k cb Hk. unfold w0 in Hk. cbn in Hk.
    rewrite lookup_empty in Hk. discriminate. }
  specialize (Hloop w0 H0).
  destruct (runLoop cfg envs w0) as [[c|m|] w1]; cbn in *; exact Hloop.
Qed.

(** ** Slot 0 is never asked for *)

Lemma loadEpoch_mark cfg env e w :
  match loadEpoch cfg env e w with
  | inl (_, w1) => cachedSlot (sync w1) = windowLastSlot cfg e
  | inr (_, w1) => cachedSlot (sync w1) = cachedSlot (sync w)
  end.
Proof.
  unfold loadEpoch.
  destruct (IsEpochSynchronized (WriterDb w) e); [reflexivity|].
  destruct (GetEpochAssignments env e) as [[asg|] [err|]];
    cbn -[fetchBlocks]; try reflexivity.
  unfold checkKillChan. cbn -[fetchBlocks].
  destruct (killChan (sync w) || killArrives env CpAssignments);
    cbn -[fetchBlocks]; [reflexivity|].
  pose proof (fetchBlocks_fetched cfg env e _
                (emit (EvRpc (CallAssignments e) RpcOk) w) (visits_any cfg e))
    as Hloop.
  destruct (fetchBlocks cfg env e _) as [[wf|[o wf]]|]; cbv beta iota;
    try reflexivity.
  destruct Hloop as (evs & Hf & _). apply (fetched_mark _ _ _ _ _ Hf).
Qed.

Lemma syncEpoch_mark cfg env e w :
  let w' := snd (syncEpoch cfg env e w) in
  cachedSlot (sync w') = cachedSlot (sync w) \/
  cachedSlot (sync w') = windowLastSlot cfg e.
Proof.
  cbv zeta. unfold syncEpoch.
  pose proof (loadEpoch_mark cfg env e w) as Hload.
  destruct (loadEpoch cfg env e w) as [[asg w1]|[o w1]]; [|left; exact Hload].
  destruct (finishEpoch_spec cfg env e asg w1)
    as (evs & _ & _ & _ & (_ & _ & _ & ->) & _).
  right. exact Hload.
Qed.

Lemma syncEpoch_trace cfg env e w :
  exists evs,
    trace (snd (syncEpoch cfg env e w)) = trace w ++ evs /\
    Forall (fun slot => cachedSlot (sync w) < slot) (headerRequests evs).
Proof.
  destruct (syncEpoch_spec cfg env e _ w (visits_any cfg e))
    as [(_ & ->)|(_ & evs & Htrace & Hhdr & _)].
  - exists []. cbn. rewrite app_nil_r. split; [reflexivity|constructor].
  - exists evs. split; [exact Htrace|].
    eapply Forall_impl; [exact Hhdr|]. intros slot [_ H]. exact H.
Qed.

(** Whatever a worker run meets, it never asks the chain node for the
    header of slot 0: the high-water mark starts at 0 and the fetch loop
    passes over every slot at or below the mark, so the first slot of
    epoch 0 is neither fetched nor cached. *)
Theorem worker_never_requests_slot_0 cfg envs w :
  Forall (fun slot => 0 < slot)
         (headerRequests (newEvents w (snd (runSync cfg envs w)))).
Proof.
  set (P := fun (w0 w1 : World) =>
              0 <= cachedSlot (sync w1) /\
              exists evs, trace w1 = trace w0 ++ evs /\
                          Forall (fun slot => 0 < slot) (headerRequests evs)).
  assert (Hloop : forall w0 w1, P w0 w1 -> P w0 (snd (runLoop cfg envs w1))).
  { intros w0. apply (runLoop_invariant cfg (P w0)).
    intros env w1 (Hmark & evs & Htrace & Hhdr).
    destruct (loopStep_frame cfg env w1)
      as ((evs3 & Htrace3 & Hhdr3) & _ & Hslot & _).
    set (e := currentEpoch (sync w1)) in *.
    set (w2 := emit (EvLog (LogSynchronizing e)) w1) in *.
    destruct (syncEpoch_trace cfg env e w2) as (evs2 & Htrace2 & Hhdr2).
    split.
    - rewrite Hslot. destruct (syncEpoch_mark cfg env e w2) as [->| ->].
      + exact Hmark.
      + unfold windowLastSlot, u64. apply Z.mod_pos_bound. lia.
    - exists (evs ++ [EvLog (LogSynchronizing e)] ++ evs2 ++ evs3). split.
      + rewrite Htrace3, Htrace2. unfold w2. cbn. rewrite Htrace.
        rewrite <- !app_assoc. reflexivity.
      + rewrite !headerRequests_app, Hhdr3, app_nil_r. cbn.
        apply Forall_app. split; [exact Hhdr|].
        eapply Forall_impl; [exact Hhdr2|]. cbn. intros slot Hlt. lia. }
  unfold runSync.
  match goal with
  | |- context [runLoop cfg envs ?w1] => set (w0 := w1)
  end.
  assert (H0 : P w0 w0).
  { split; [cbn; lia|]. exists []. rewrite app_nil_r. split; [reflexivity|constructor]. }
  destruct (Hloop w0 w0 H0) as (_ & evs & Htrace & Hhdr).
  assert (Hstart : trace w0 = trace w ++ [EvLog (LogStarted (currentEpoch (sync w)))])
    by reflexivity.
  destruct (runLoop cfg envs w0) as [[c|m|] w1]; cbn [snd] in *.
  - rewrite (newEvents_app w _
               ([EvLog (LogStarted (currentEpoch (sync w)))] ++ evs
                ++ [EvLog (if c then LogComplete (currentEpoch (sync w1))
                           else LogAborted (currentEpoch (sync w1)))])).
    + rewrite !headerRequests_app. cbn. rewrite app_nil_r. exact Hhdr.
    + cbn. rewrite Htrace, Hstart, <- !app_assoc. reflexivity.
  - rewrite (newEvents_app w _ ([EvLog (LogStarted (currentEpoch (sync w)))]
                                ++ evs ++ [EvLog (LogPanic m)])).
    + rewrite !headerRequests_app. cbn. rewrite app_nil_r. exact Hhdr.
    + cbn. rewrite Htrace, Hstart, <- !app_assoc. reflexivity.
  - rewrite (newEvents_app w _ ([EvLog (LogStarted (currentEpoch (sync w)))] ++ evs)).
    + rewrite !headerRequests_app. cbn. exact Hhdr.
    + rewrite Htrace, Hstart, <- !app_assoc. reflexivity.
Qed.

(** ** Missing assignments are retried without the backoff *)

(** When the chain node answers the assignments request with nil and no
    error, [syncEpoch] returns not-done with a nil error, so the worker
    loop neither moves its cursor nor takes the 10 second sleep it takes
    after an error: with nobody parked on the kill channel it goes round
    again after the cooldown alone, the world changed by three trace lines
    only. *)
Theorem nil_assignments_no_backoff cfg env envs w :
  let e := currentEpoch (sync w) in
  IsEpochSynchronized (WriterDb w) e = false ->
  GetEpochAssignments env e = (None, None) ->
  killChan (sync w) = false ->
  killArrives env CpCooldown = false ->
  exists w',
    runLoop cfg (env :: envs) w = runLoop cfg envs w' /\
    sync w' = sync w /\ WriterDb w' = WriterDb w /\
    trace w' = trace w ++ [EvLog (LogSynchronizing e);
                           EvRpc (CallAssignments e) RpcNil;
                           EvLog (LogDutiesError e)].
Proof.
  intros e Hsync Hasg Hchan Hquiet.
  cbn [runLoop]. fold e. unfold syncEpoch, loadEpoch.
  cbn [WriterDb emit]. rewrite Hsync, Hasg. cbn.
  unfold checkKillChan. cbn. rewrite Hchan, Hquiet. cbn.
  destruct (0 <? SyncEpochCooldown cfg);
    (eexists; split; [reflexivity|]; cbn;
     repeat split; rewrite <- !app_assoc; reflexivity).
Qed.

(** A chain node that has no assignments for epoch 0. *)
Lemma nil_assignments_no_backoff_witness :
  exists w',
    runLoop cfg2 [dutiless] (started 0) = runLoop cfg2 [] w' /\
    sync w' = sync (started 0) /\ WriterDb w' = WriterDb (started 0) /\
    trace w' = [EvLog (LogSynchronizing 0); EvRpc (CallAssignments 0) RpcNil;
                EvLog (LogDutiesError 0)].
Proof.
  apply (nil_assignments_no_backoff cfg2 dutiless [] (started 0)); reflexivity.
Defined.

(** ** The slot page: which requests reach the beacon service *)

Ltac break_match :=
  repeat match goal with
         | |- context [match ?x with _ => _ end] =>
             lazymatch x with
             | context [match _ with _ => _ end] => fail
             | _ => destruct x eqn:?
             end
         end.

Lemma Slot_accepted_queries svc v :
  Handlers.queries (Handlers.Slot svc v) <> [] ->
  exists rest,
    Handlers.queries (Handlers.Slot svc v)
    = Handlers.QueryFinalizedBlockHead :: rest.
Proof.
  unfold Handlers.Slot.
  set (isRoot := match Handlers.DecodeString _ with
                 | Some _ => _ | None => false end).
  destruct (if isRoot then false else _) eqn:Hrej;
    [cbn; congruence|]. clear Hrej. intros _.
  cbv zeta.
  destruct (Handlers.GetFinalizedBlockHead svc) as [fh [fe|]].
  - cbn. eauto.
  - destruct (-1 <? (if isRoot then -1 else _));
      break_match; cbn; eauto.
Qed.

Lemma Slot_rejected svc v :
  isBlockRoot (Handlers.stripHexPrefix v) = false ->
  Handlers.ParseInt v = None \/
    (exists n, Handlers.ParseInt v = Some n /\ 2147483648 <= n) ->
  Handlers.Slot svc v
  = {| Handlers.queries := [];
       Handlers.page := Handlers.NotFoundPage (Handlers.stripHexPrefix v) |}.
Proof.
  unfold isBlockRoot, Handlers.Slot. intros -> Hparse. cbv beta iota zeta.
  destruct Hparse as [->|(n & -> & Hn)]; [reflexivity|].
  replace (2147483648 <=? n) with true by (symmetry; apply Z.leb_le; exact Hn).
  reflexivity.
Qed.

Lemma Slot_accepted svc v :
  isBlockRoot (Handlers.stripHexPrefix v) = true \/
    (exists n, Handlers.ParseInt v = Some n /\ n < 2147483648) ->
  Handlers.queries (Handlers.Slot svc v) <> [].
Proof.
  unfold isBlockRoot, Handlers.Slot. intros Hok.
  set (isRoot := match Handlers.DecodeString _ with
                 | Some _ => _ | None => false end) in *.
  assert (Hrej : (if isRoot then false
                  else match (if isRoot then None else Handlers.ParseInt v) with
                       | Some blockSlot => 2147483648 <=? blockSlot
                       | None => true
                       end) = false).
  { destruct isRoot; [reflexivity|].
    destruct Hok as [Hroot|(n & -> & Hn)]; [discriminate|].
    apply Z.leb_gt. exact Hn. }
  rewrite Hrej. cbv zeta.
  destruct (Handlers.GetFinalizedBlockHead svc) as [fh [fe|]].
  - cbn. discriminate.
  - destruct (-1 <? (if isRoot then -1 else _));
      break_match; cbn; discriminate.
Qed.

(** The handler sends nothing to the beacon service exactly when the
    parameter is rejected up front: it is not a block root and it does not
    parse as a decimal [int64] below 2147483648.  In every other case,
    negative numbers included, the first thing it does is ask for the
    finalized block head. *)
Theorem Slot_queries_beacon_iff svc v :
  (Handlers.queries (Handlers.Slot svc v) = [] <->
   isBlockRoot (Handlers.stripHexPrefix v) = false /\
   (Handlers.ParseInt v = None \/
    exists n, Handlers.ParseInt v = Some n /\ 2147483648 <= n)) /\
  (Handlers.queries (Handlers.Slot svc v) <> [] ->
   exists rest, Handlers.queries (Handlers.Slot svc v)
                = Handlers.QueryFinalizedBlockHead :: rest).
Proof.
  split; [|apply Slot_accepted_queries]. split.
  - intros Hnone.
    destruct (isBlockRoot (Handlers.stripHexPrefix v)) eqn:Hroot.
    { exfalso. apply (Slot_accepted svc v); [left; exact Hroot|exact Hnone]. }
    split; [reflexivity|].
    destruct (Handlers.ParseInt v) as [n|] eqn:Hparse; [|left; reflexivity].
    right. exists n. split; [reflexivity|].
    destruct (Z.lt_ge_cases n 2147483648) as [Hlt|Hge]; [|exact Hge].
    exfalso. apply (Slot_accepted svc v); [right; eauto|exact Hnone].
  - intros [Hroot Hparse]. rewrite (Slot_rejected svc v Hroot Hparse).
    reflexivity.
Qed.

(** A negative number goes through to the beacon service; a word does
    not. *)
Lemma Slot_queries_beacon_iff_witness :
  Handlers.queries (Handlers.Slot blank "latest") = [] /\
  exists rest, Handlers.queries (Handlers.Slot blank "-5")
               = Handlers.QueryFinalizedBlockHead :: rest.
Proof.
  destruct (Slot_queries_beacon_iff blank "latest") as [[_ Hno] _].
  destruct (Slot_queries_beacon_iff blank "-5") as [_ Hyes].
  split.
  - apply Hno. split; [vm_compute; reflexivity|left; vm_compute; reflexivity].
  - apply Hyes. vm_compute. discriminate.
Defined.

(** A decimal number that passes the check is looked up by its sign: a
    number from 0 up is asked for by slot, a negative number is asked for
    as the empty block root.  A number from 0 up never gets the not-found
    page: without a block and without an error the page is the one of a
    slot with no block. *)
Theorem Slot_number_lookup svc v n fh :
  isBlockRoot (Handlers.stripHexPrefix v) = false ->
  Handlers.ParseInt v = Some n -> n < 2147483648 ->
  Handlers.GetFinalizedBlockHead svc = (fh, None) ->
  (exists rest,
     Handlers.queries (Handlers.Slot svc v)
     = Handlers.QueryFinalizedBlockHead
       :: (if 0 <=? n then Handlers.QuerySlotDetailsBySlot n
           else Handlers.QuerySlotDetailsByBlockroot [])
       :: rest) /\
  (0 <= n ->
   (forall title, Handlers.page (Handlers.Slot svc v)
                  <> Handlers.NotFoundPage title) /\
   (Handlers.GetSlotDetailsBySlot svc n = (None, None) ->
    (forall root, Handlers.GetOrphanedBlock svc root = None) ->
    Handlers.page (Handlers.Slot svc v) = Handlers.SlotPage n None)).
Proof.
  unfold isBlockRoot, Handlers.Slot. intros -> -> Hn ->.
  replace (2147483648 <=? n) with false by (symmetry; apply Z.leb_gt; exact Hn).
  cbv beta iota zeta. cbn [default from_option]. unfold id.
  destruct (Z.leb_spec 0 n) as [Hpos|Hneg].
  - replace (-1 <? n) with true by (symmetry; apply Z.ltb_lt; lia).
    assert (Hbig : 2147483648 < 2 ^ 64) by reflexivity.
    rewrite u64_small by lia. clear Hbig.
    split; [|intros _; split].
    + break_match; cbn; eauto.
    + intros title. break_match; cbn; discriminate.
    + intros -> Horph. cbn. rewrite Horph. reflexivity.
  - replace (-1 <? n) with false by (symmetry; apply Z.ltb_ge; lia).
    split; [|lia]. break_match; cbn; eauto.
Qed.

(** Slot 5 and slot -5 on a service that knows no block. *)
Lemma Slot_number_lookup_witness :
  Handlers.Slot blank "5"
  = {| Handlers.queries := [Handlers.QueryFinalizedBlockHead;
                            Handlers.QuerySlotDetailsBySlot 5;
                            Handlers.QueryDbBlocksForSlots 5;
                            Handlers.QueryOrphanedBlock []];
       Handlers.page := Handlers.SlotPage 5 None |} /\
  (exists rest,
     Handlers.queries (Handlers.Slot blank "-5")
     = Handlers.QueryFinalizedBlockHead
       :: Handlers.QuerySlotDetailsByBlockroot [] :: rest) /\
  Handlers.page (Handlers.Slot blank "5") = Handlers.SlotPage 5 None.
Proof.
  split; [vm_compute; reflexivity|]. split.
  - apply (proj1 (Slot_number_lookup blank "-5" (-5) (Some 0)
                    eq_refl eq_refl eq_refl eq_refl)).
  - apply (proj2 (Slot_number_lookup blank "5" 5 (Some 0)
                    eq_refl eq_refl eq_refl eq_refl)); [lia|reflexivity|].
    intros root. reflexivity.
Defined.

(** ** The slot page: block roots *)


Lemma hexDigit_not_x c n : Handlers.hexDigit c = Some n -> c <> "x"%char.
Proof. intros H ->. vm_compute in H. discriminate. Qed.

(** A string that decodes as hex holds no ["0x"]. *)
Lemma DecodeString_plain (l : bytes) : forall s,
  Handlers.DecodeString s = Some l -> Handlers.stripHexPrefix s = s.
Proof.
  induction l as [|x l IH]; intros s Hdec.
  - destruct s as [|p [|q rest]]; [reflexivity|discriminate|].
    cbn [Handlers.DecodeString] in Hdec.
    destruct (Handlers.hexDigit p), (Handlers.hexDigit q); try discriminate.
    destruct (Byte.of_N _), (Handlers.DecodeString rest); discriminate.
  - destruct s as [|p [|q rest]]; [discriminate|discriminate|].
    cbn [Handlers.DecodeString] in Hdec.
    destruct (Handlers.hexDigit p) as [a|] eqn:Hp; [|discriminate].
    destruct (Handlers.hexDigit q) as [b|] eqn:Hq; [|discriminate].
    destruct (Byte.of_N _); [|discriminate].
    destruct (Handlers.DecodeString rest) as [l'|] eqn:Hrest; [|discriminate].
    injection Hdec as _ ->.
    rewrite stripHexPrefix_cons.
    2: { right. intros rest' H. injection H as -> _.
         exact (hexDigit_not_x _ _ Hq eq_refl). }
    rewrite stripHexPrefix_cons.
    2: { right. intros rest' ->. cbn [Handlers.DecodeString] in Hrest.
         destruct rest' as [|q' rest'']; [discriminate|].
         vm_compute (Handlers.hexDigit "x") in Hrest. discriminate. }
    rewrite (IH rest Hrest). reflexivity.
Qed.


(** With and without ["0x"] in front, a block root gets the same answer. *)
Theorem Slot_hex_prefix svc h :
  isBlockRoot h = true ->
  Handlers.Slot svc (String "0" (String "x" h)) = Handlers.Slot svc h.
Proof.
  intros Hroot.
  assert (Hplain : Handlers.stripHexPrefix h = h).
  { unfold isBlockRoot in Hroot.
    destruct (Handlers.DecodeString h) as [l|] eqn:Hdec; [|discriminate].
    exact (DecodeString_plain l h Hdec). }
  unfold Handlers.Slot.
  change (Handlers.stripHexPrefix (String "0" (String "x" h)))
    with (Handlers.stripHexPrefix h).
  rewrite Hplain. fold (isBlockRoot h). rewrite Hroot. reflexivity.
Qed.


Lemma Slot_hex_prefix_witness :
  isBlockRoot root64 = true /\
  Handlers.Slot blank (String "0" (String "x" root64)) = Handlers.Slot blank root64.
Proof.
  assert (Hroot : isBlockRoot root64 = true) by (vm_compute; reflexivity).
  split; [exact Hroot|]. apply (Slot_hex_prefix blank root64 Hroot).
Defined.

(** ** The slot page: blobs *)

(** The blobs of the page: none before the Deneb fork or when the block
    carries no blob list; otherwise one entry per blob, in order, each
    with the whole blob and a short form that is its first 512 bytes, so
    never longer than 512 bytes, equal to the blob when that has 512 bytes
    or fewer, and flagged as short exactly when bytes were cut off. *)
Theorem slotPageBlobs_short epoch fork (blobs : option (list SlotPage.BlobSidecar)) :
  let pages := snd (SlotPage.slotPageBlobs epoch fork blobs) in
  (epoch < fork \/ blobs = None -> SlotPage.slotPageBlobs epoch fork blobs = (0, [])) /\
  (forall data, blobs = Some data -> fork <= epoch ->
     map SlotPage.pageBlob pages = map SlotPage.Blob data) /\
  Forall (fun p =>
            SlotPage.BlobShort p = take 512 (SlotPage.pageBlob p) /\
            (length (SlotPage.BlobShort p) <= 512)%nat /\
            (SlotPage.IsShort p = true <-> (512 < length (SlotPage.pageBlob p))%nat) /\
            (SlotPage.IsShort p = false ->
             SlotPage.BlobShort p = SlotPage.pageBlob p)) pages.
Proof.
  assert (Hone : forall blob,
    let p := SlotPage.blobPageData blob in
    SlotPage.pageBlob p = SlotPage.Blob blob /\
    SlotPage.BlobShort p = take 512 (SlotPage.pageBlob p) /\
    (length (SlotPage.BlobShort p) <= 512)%nat /\
    (SlotPage.IsShort p = true <-> (512 < length (SlotPage.pageBlob p))%nat) /\
    (SlotPage.IsShort p = false -> SlotPage.BlobShort p = SlotPage.pageBlob p)).
  { intros blob. unfold SlotPage.blobPageData.
    destruct (Z.ltb_spec 512 (Z.of_nat (length (SlotPage.Blob blob)))) as [Hlt|Hge];
      cbn.
    - split; [reflexivity|]. split; [reflexivity|].
      split; [rewrite length_take; lia|].
      split; [split; [intros _; lia|reflexivity]|discriminate].
    - split; [reflexivity|].
      split; [symmetry; apply take_ge; lia|].
      split; [lia|]. split; [split; [discriminate|lia]|reflexivity]. }
  cbv zeta. unfold SlotPage.slotPageBlobs. split; [|split].
  - intros [Hlt| ->]; [|reflexivity].
    destruct blobs as [data|]; [|reflexivity].
    replace (fork <=? epoch) with false by (symmetry; apply Z.leb_gt; exact Hlt).
    reflexivity.
  - intros data -> Hle.
    replace (fork <=? epoch) with true by (symmetry; apply Z.leb_le; exact Hle).
    cbn. rewrite map_map. apply map_ext. intros blob. apply (Hone blob).
  - destruct blobs as [data|]; [|constructor].
    destruct (fork <=? epoch); [|constructor]. cbn.
    apply Forall_map. apply Forall_forall. intros blob _.
    destruct (Hone blob) as (_ & H). exact H.
Qed.

(** A blob of 600 bytes is cut to 512 and flagged, one of 3 is not; before
    the fork there is none. *)
Lemma slotPageBlobs_short_witness :
  SlotPage.slotPageBlobs 9 10 (Some [bigBlob; smallBlob]) = (0, []) /\
  map SlotPage.pageBlob (snd (SlotPage.slotPageBlobs 10 10 (Some [bigBlob; smallBlob])))
  = [SlotPage.Blob bigBlob; SlotPage.Blob smallBlob] /\
  map SlotPage.IsShort (snd (SlotPage.slotPageBlobs 10 10 (Some [bigBlob; smallBlob])))
  = [true; false].
Proof.
  destruct (slotPageBlobs_short 9 10 (Some [bigBlob; smallBlob])) as (Hnone & _).
  destruct (slotPageBlobs_short 10 10 (Some [bigBlob; smallBlob])) as (_ & Hall & _).
  split; [apply Hnone; left; lia|].
  split; [apply (Hall _ eq_refl); lia|]. vm_compute. reflexivity.
Defined.

(** ** Headers are asked for in slot order, each once *)

Lemma fetchSlot_requests env slot w :
  let w' := match fetchSlot env slot w with inl w1 => w1 | inr r => snd r end in
  cachedSlot (sync w') = cachedSlot (sync w) /\
  exists evs,
    trace w' = trace w ++ evs /\
    headerRequests evs = if cachedSlot (sync w) <? slot then [slot] else [].
Proof.
  cbv zeta. unfold fetchSlot. rewrite Z.leb_antisym.
  destruct (cachedSlot (sync w) <? slot); cbn [negb].
  2: { split; [reflexivity|]. exists []. rewrite app_nil_r. split; reflexivity. }
  destruct (GetBlockHeaderBySlot env slot) as [[hd|] [err|]]; cbn;
    try (split; [reflexivity|]; eexists [_]; split; reflexivity).
  unfold checkKillChan. cbn.
  destruct (killChan (sync w) || killArrives env (CpSlot slot)); cbn;
    [split; [reflexivity|]; eexists [_]; split; reflexivity|].
  destruct (GetBlockBodyByBlockroot env (hdrRoot hd)) as [[body|] [berr|]]; cbn;
    (split; [reflexivity|]; eexists [_; _];
     split; [rewrite <- app_assoc; reflexivity|reflexivity]).
Qed.

Lemma foldSlots_requests env (slots : list Z) : forall w,
  let want := List.filter (fun slot => cachedSlot (sync w) <? slot) slots in
  match foldSlots (fetchSlot env) slots w with
  | inl w' =>
      cachedSlot (sync w') = cachedSlot (sync w) /\
      exists evs, trace w' = trace w ++ evs /\ headerRequests evs = want
  | inr r =>
      cachedSlot (sync (snd r)) = cachedSlot (sync w) /\
      exists evs, trace (snd r) = trace w ++ evs /\
                  headerRequests evs `prefix_of` want
  end.
Proof.
  induction slots as [|x xs IH]; intros w; cbn [foldSlots List.filter].
  - split; [reflexivity|]. exists []. rewrite app_nil_r. split; reflexivity.
  - pose proof (fetchSlot_requests env x w) as Hstep. cbv zeta in Hstep.
    destruct (fetchSlot env x w) as [w1|r].
    + destruct Hstep as (Hmark & evs1 & Htrace1 & Hreq1).
      specialize (IH w1). cbv zeta in IH. rewrite Hmark in IH.
      assert (Hcons : (if cachedSlot (sync w) <? x
                       then x :: List.filter (fun slot => cachedSlot (sync w) <? slot) xs
                       else List.filter (fun slot => cachedSlot (sync w) <? slot) xs)
                      = headerRequests evs1
                        ++ List.filter (fun slot => cachedSlot (sync w) <? slot) xs).
      { rewrite Hreq1. destruct (cachedSlot (sync w) <? x); reflexivity. }
      rewrite Hcons.
      destruct (foldSlots (fetchSlot env) xs w1) as [w2|r2].
      * destruct IH as (Hmark2 & evs2 & Htrace2 & Hreq2).
        split; [congruence|]. exists (evs1 ++ evs2).
        split; [rewrite Htrace2, Htrace1; symmetry; apply app_assoc|].
        rewrite headerRequests_app, Hreq2. reflexivity.
      * destruct IH as (Hmark2 & evs2 & Htrace2 & Hreq2).
        split; [congruence|]. exists (evs1 ++ evs2).
        split; [rewrite Htrace2, Htrace1; symmetry; apply app_assoc|].
        rewrite headerRequests_app. apply prefix_app. exact Hreq2.
    + destruct Hstep as (Hmark & evs1 & Htrace1 & Hreq1).
      split; [exact Hmark|]. exists evs1. split; [exact Htrace1|].
      rewrite Hreq1. destruct (cachedSlot (sync w) <? x);
        [apply prefix_cons; apply prefix_nil|apply prefix_nil].
Qed.

Lemma loadEpoch_requests cfg env e w :
  windowFits cfg e ->
  let want := slotsToFetch cfg e (cachedSlot (sync w)) in
  match loadEpoch cfg env e w with
  | inl (_, w1) =>
      exists evs, trace w1 = trace w ++ evs /\ headerRequests evs = want
  | inr (_, w1) =>
      exists evs, trace w1 = trace w ++ evs /\
                  headerRequests evs `prefix_of` want
  end.
Proof.
  intros Hfit want. unfold loadEpoch.
  destruct (IsEpochSynchronized (WriterDb w) e).
  { exists []. rewrite app_nil_r. split; [reflexivity|apply prefix_nil]. }
  destruct (GetEpochAssignments env e) as [[asg|] [err|]];
    cbn -[fetchBlocks];
    try (eexists [_; _]; split;
         [rewrite <- app_assoc; reflexivity|apply prefix_nil]).
  unfold checkKillChan. cbn -[fetchBlocks].
  destruct (killChan (sync w) || killArrives env CpAssignments);
    cbn -[fetchBlocks].
  { eexists [_]. split; [reflexivity|apply prefix_nil]. }
  rewrite fetchBlocks_fold by exact Hfit.
  pose proof (foldSlots_requests env
                (seqZ (e * SlotsPerEpoch cfg) (SlotsPerEpoch cfg * 2))
                (emit (EvRpc (CallAssignments e) RpcOk) w)) as Hloop.
  cbv zeta in Hloop. cbn [sync emit trace] in Hloop.
  destruct (foldSlots (fetchSlot env) _ _) as [wf|[o wf]]; cbn [snd] in Hloop;
    destruct Hloop as (_ & evs & Htrace & Hreq);
    exists (EvRpc (CallAssignments e) RpcOk :: evs);
    (split; [cbn; rewrite Htrace, <- app_assoc; reflexivity|exact Hreq]).
Qed.

(** In an epoch whose window does not wrap, the headers a call of
    [syncEpoch] asks for are, in this order and each once, the slots of the
    window above the high-water mark the call started with: all of them
    when the call got as far as persisting the epoch, a first part of them
    when it stopped before. *)
Theorem syncEpoch_requests_in_order cfg env e w :
  windowFits cfg e ->
  let want := slotsToFetch cfg e (cachedSlot (sync w)) in
  let got := headerRequests (newEvents w (snd (syncEpoch cfg env e w))) in
  got `prefix_of` want /\ (persisted cfg env e w -> got = want).
Proof.
  intros Hfit want got. subst got. unfold persisted, syncEpoch.
  pose proof (loadEpoch_requests cfg env e w Hfit) as Hload.
  pose proof (loadEpoch_spec cfg env e _ w (visits_any cfg e)) as Hspec.
  fold want in Hload.
  destruct (loadEpoch cfg env e w) as [[asg w1]|[o w1]].
  - destruct Hload as (evs1 & Htrace1 & Hreq1).
    destruct (finishEpoch_spec cfg env e asg w1) as (evs2 & Htrace2 & Hreq2 & _).
    rewrite (newEvents_app w _ (evs1 ++ evs2))
      by (rewrite Htrace2, Htrace1; symmetry; apply app_assoc).
    rewrite headerRequests_app, Hreq2, app_nil_r, Hreq1.
    split; [reflexivity|intros _; reflexivity].
  - destruct Hload as (evs1 & Htrace1 & Hreq1). cbn [fst snd].
    rewrite (newEvents_app _ _ _ Htrace1). split; [exact Hreq1|].
    intros [Hsync ->]. exfalso.
    destruct Hspec as [(Hsync' & _)|(_ & evs & _ & Hearly)]; [congruence|].
    exact Hearly.
Qed.

(** Epoch 1 after epoch 0: slots 4 and 5 are asked for, in this order. *)
Lemma syncEpoch_requests_in_order_witness :
  windowFits cfg2 1 /\ persisted cfg2 (node [] 9) 1 afterEpoch0 /\
  slotsToFetch cfg2 1 (cachedSlot (sync afterEpoch0)) = [4; 5] /\
  headerRequests (newEvents afterEpoch0
                    (snd (syncEpoch cfg2 (node [] 9) 1 afterEpoch0)))
  = slotsToFetch cfg2 1 (cachedSlot (sync afterEpoch0)).
Proof.
  assert (Hfit : windowFits cfg2 1) by (unfold windowFits; simpl; lia).
  assert (Hp : persisted cfg2 (node [] 9) 1 afterEpoch0)
    by (split; vm_compute; reflexivity).
  split; [exact Hfit|]. split; [exact Hp|]. split; [vm_compute; reflexivity|].
  apply (proj2 (syncEpoch_requests_in_order cfg2 (node [] 9) 1 afterEpoch0 Hfit)).
  exact Hp.
Defined.
